(** * TIFF compression tool: compress, verify, keep-or-discard

    A shallow embedding of [app/compression_check.py], [app/tiff_compression.py]
    and the file-handling methods of [app/tiff_compression_gui.py], with the
    properties of the verification checks and of the file-management policy.

    The TIFF codec (tifffile), the array library (numpy) and the operating
    system are outside the repository.  The codec and the array reductions are
    parameters of the development; the file system is an explicit state; MD5
    (hashlib) is written out after RFC 1321, because what [verify_file_hashes]
    returns depends on it, and so are the float64 mean and standard deviation
    of numpy on integer images, because what [verify_statistics] returns
    depends on the order in which they add. *)

From Stdlib Require Import ZArith QArith Qcanon Ascii String List Lia Bool.
From Stdlib Require Import Init.Byte.
From Corelib Require SpecFloat.
From stdpp Require Import base option list strings pretty gmap.
Import ListNotations.

Local Open Scope Z_scope.

(** ** Bytes and hexadecimal text *)

Definition byte_to_Z (b : byte) : Z := Z.of_N (Byte.to_N b).

Definition byte_of_Z (z : Z) : byte :=
  match Byte.of_N (Z.to_N (z mod 256)) with
  | Some b => b
  | None => x00
  end.

Definition hex_digit (n : Z) : ascii :=
  ascii_of_N (Z.to_N (if n <? 10 then 48 + n else 87 + n)).

Definition hex_value (c : ascii) : Z :=
  let n := Z.of_N (N_of_ascii c) in
  if (48 <=? n) && (n <=? 57) then n - 48
  else if (97 <=? n) && (n <=? 102) then n - 87
  else if (65 <=? n) && (n <=? 70) then n - 55
  else 0.

Fixpoint hex_of_bytes (l : list byte) : string :=
  match l with
  | [] => EmptyString
  | b :: r =>
      String (hex_digit (byte_to_Z b / 16))
        (String (hex_digit (byte_to_Z b mod 16)) (hex_of_bytes r))
  end.

(** [bytes.fromhex]: used to write file contents down in the examples. *)
Fixpoint bytes_fromhex (s : string) : list byte :=
  match s with
  | String h (String l r) =>
      byte_of_Z (16 * hex_value h + hex_value l) :: bytes_fromhex r
  | _ => []
  end.

(** The bytes of an ASCII text. *)
Fixpoint bytes_of_string (s : string) : list byte :=
  match s with
  | EmptyString => []
  | String c r => byte_of_Z (Z.of_N (N_of_ascii c)) :: bytes_of_string r
  end.

(** ** MD5 (RFC 1321), the digest behind [hashlib.md5] *)

Module MD5.

Definition w32 (x : Z) : Z := x mod 2 ^ 32.

Definition add32 (x y : Z) : Z := w32 (x + y).

Definition rotl32 (x : Z) (n : Z) : Z :=
  Z.lor (w32 (Z.shiftl x n)) (Z.shiftr (w32 x) (32 - n)).

Definition not32 (x : Z) : Z := Z.lxor (w32 x) 0xffffffff.

(** Per-round shift amounts. *)
Definition S : list Z :=
  [ 7; 12; 17; 22;  7; 12; 17; 22;  7; 12; 17; 22;  7; 12; 17; 22;
    5;  9; 14; 20;  5;  9; 14; 20;  5;  9; 14; 20;  5;  9; 14; 20;
    4; 11; 16; 23;  4; 11; 16; 23;  4; 11; 16; 23;  4; 11; 16; 23;
    6; 10; 15; 21;  6; 10; 15; 21;  6; 10; 15; 21;  6; 10; 15; 21 ].

(** [K[i] = floor(2^32 * abs(sin(i + 1)))]. *)
Definition K : list Z :=
  [ 0xd76aa478; 0xe8c7b756; 0x242070db; 0xc1bdceee;
    0xf57c0faf; 0x4787c62a; 0xa8304613; 0xfd469501;
    0x698098d8; 0x8b44f7af; 0xffff5bb1; 0x895cd7be;
    0x6b901122; 0xfd987193; 0xa679438e; 0x49b40821;
    0xf61e2562; 0xc040b340; 0x265e5a51; 0xe9b6c7aa;
    0xd62f105d; 0x02441453; 0xd8a1e681; 0xe7d3fbc8;
    0x21e1cde6; 0xc33707d6; 0xf4d50d87; 0x455a14ed;
    0xa9e3e905; 0xfcefa3f8; 0x676f02d9; 0x8d2a4c8a;
    0xfffa3942; 0x8771f681; 0x6d9d6122; 0xfde5380c;
    0xa4beea44; 0x4bdecfa9; 0xf6bb4b60; 0xbebfbc70;
    0x289b7ec6; 0xeaa127fa; 0xd4ef3085; 0x04881d05;
    0xd9d4d039; 0xe6db99e5; 0x1fa27cf8; 0xc4ac5665;
    0xf4292244; 0x432aff97; 0xab9423a7; 0xfc93a039;
    0x655b59c3; 0x8f0ccc92; 0xffeff47d; 0x85845dd1;
    0x6fa87e4f; 0xfe2ce6e0; 0xa3014314; 0x4e0811a1;
    0xf7537e82; 0xbd3af235; 0x2ad7d2bb; 0xeb86d391 ].

Record state := State { sA : Z; sB : Z; sC : Z; sD : Z }.

Definition init : state :=
  State 0x67452301 0xefcdab89 0x98badcfe 0x10325476.

(** Little-endian 32-bit words of a byte sequence. *)
Fixpoint words_le (l : list byte) : list Z :=
  match l with
  | b0 :: b1 :: b2 :: b3 :: r =>
      (byte_to_Z b0 + 2 ^ 8 * byte_to_Z b1
       + 2 ^ 16 * byte_to_Z b2 + 2 ^ 24 * byte_to_Z b3) :: words_le r
  | _ => []
  end.

Definition bytes_le (n : nat) (x : Z) : list byte :=
  map (fun i => byte_of_Z (Z.shiftr x (8 * Z.of_nat i))) (seq 0 n).

(** One of the 64 operations of a block. *)
Definition step (M : list Z) (st : state) (i : nat) : state :=
  let '(State a b c d) := st in
  let zi := Z.of_nat i in
  let '(f, g) :=
    if zi <? 16 then (Z.lor (Z.land b c) (Z.land (not32 b) d), zi)
    else if zi <? 32 then
      (Z.lor (Z.land d b) (Z.land (not32 d) c), (5 * zi + 1) mod 16)
    else if zi <? 48 then (Z.lxor b (Z.lxor c d), (3 * zi + 5) mod 16)
    else (Z.lxor c (Z.lor b (not32 d)), (7 * zi) mod 16) in
  let f' := add32 (add32 (add32 f a) (nth i K 0)) (nth (Z.to_nat g) M 0) in
  State d (add32 b (rotl32 f' (nth i S 0))) b c.

Definition compress (st : state) (block : list byte) : state :=
  let r := fold_left (step (words_le block)) (seq 0 64) st in
  State (add32 (sA st) (sA r)) (add32 (sB st) (sB r))
        (add32 (sC st) (sC r)) (add32 (sD st) (sD r)).

(** The message, a [0x80] byte, zeros up to 56 modulo 64, and the bit
    length on 64 bits, least significant byte first. *)
Definition pad (msg : list byte) : list byte :=
  let n := Z.of_nat (length msg) in
  msg ++ [x80] ++ repeat x00 (Z.to_nat ((55 - n) mod 64))
      ++ bytes_le 8 ((8 * n) mod 2 ^ 64).

Fixpoint blocks (fuel : nat) (st : state) (l : list byte) : state :=
  match fuel with
  | O => st
  | Datatypes.S fuel' =>
      match l with
      | [] => st
      | _ => blocks fuel' (compress st (firstn 64 l)) (skipn 64 l)
      end
  end.

Definition digest (msg : list byte) : list byte :=
  let p := pad msg in
  let '(State a b c d) := blocks (length p) init p in
  bytes_le 4 a ++ bytes_le 4 b ++ bytes_le 4 c ++ bytes_le 4 d.

Definition hexdigest (msg : list byte) : string := hex_of_bytes (digest msg).

End MD5.

(** ** Exceptions and results *)

(** The Python exception classes that occur.  [Exception] is the class the
    repository itself raises when it wraps an error; the others come from
    the interpreter and the libraries. *)
Inductive exn_class :=
| Exception | FileNotFoundError | PermissionError | FileExistsError
| TiffFileError | ValueError | IndexError | KeyError | ZeroDivisionError.

(** An exception: its class and [str(e)]. *)
Record exn := Exn { exn_type : exn_class; exn_str : string }.

Inductive result (A : Type) :=
| Ok (a : A)
| Raise (e : exn).
Arguments Ok {A} a.
Arguments Raise {A} e.

Definition rbind {A B} (r : result A) (k : A -> result B) : result B :=
  match r with
  | Ok a => k a
  | Raise e => Raise e
  end.

(** [try: r  except Exception as e: h e] on a pure computation. *)
Definition rcatch {A} (r : result A) (h : exn -> result A) : result A :=
  match r with
  | Ok a => Ok a
  | Raise e => h e
  end.

Declare Scope result_scope.
Delimit Scope result_scope with result.
Notation "x <- r ;; k" := (rbind r (fun x => k))
  (at level 100, r at next level, right associativity) : result_scope.

(** ** Paths ([posixpath]) *)

Module path.

Definition sep : ascii := "/"%char.
Definition extsep : ascii := "."%char.
Definition pardir : string := "..".

(** [s.rfind(c)]: the index of the last [c], or [-1]. *)
Fixpoint rfind (c : ascii) (s : string) : Z :=
  match s with
  | EmptyString => -1
  | String a r =>
      let i := rfind c r in
      if 0 <=? i then i + 1 else if Ascii.eqb a c then 0 else -1
  end.

(** [s[i:]] and [s[:i]] for [0 <= i]. *)
Fixpoint drop (n : nat) (s : string) : string :=
  match n, s with
  | O, _ => s
  | Datatypes.S n', String _ r => drop n' r
  | Datatypes.S _, EmptyString => EmptyString
  end.

Fixpoint take (n : nat) (s : string) : string :=
  match n, s with
  | O, _ => EmptyString
  | Datatypes.S n', String a r => String a (take n' r)
  | Datatypes.S _, EmptyString => EmptyString
  end.

Definition startswith_sep (s : string) : bool :=
  match s with
  | String a _ => Ascii.eqb a sep
  | EmptyString => false
  end.

Fixpoint endswith_sep (s : string) : bool :=
  match s with
  | EmptyString => false
  | String a EmptyString => Ascii.eqb a sep
  | String _ r => endswith_sep r
  end.

Fixpoint existsb_string (f : ascii -> bool) (s : string) : bool :=
  match s with
  | EmptyString => false
  | String a r => f a || existsb_string f r
  end.

(** [os.path.basename]: [p[p.rfind('/') + 1:]]. *)
Definition basename (p : string) : string :=
  drop (Z.to_nat (rfind sep p + 1)) p.

(** [os.path.splitext]: the extension starts at the last dot of the last
    component, unless only dots come before it in that component. *)
Definition splitext (p : string) : string * string :=
  let sepIndex := rfind sep p in
  let dotIndex := rfind extsep p in
  if (sepIndex <? dotIndex)
     && existsb_string (fun a => negb (Ascii.eqb a extsep))
          (take (Z.to_nat (dotIndex - (sepIndex + 1)))
                (drop (Z.to_nat (sepIndex + 1)) p))
  then (take (Z.to_nat dotIndex) p, drop (Z.to_nat dotIndex) p)
  else (p, EmptyString).

(** [os.path.join] of two paths. *)
Definition join (a b : string) : string :=
  if startswith_sep b then b
  else if String.eqb a "" || endswith_sep a then a +:+ b
  else a +:+ "/" +:+ b.

(** [p.split('/')]. *)
Fixpoint split (p : string) : list string :=
  match p with
  | EmptyString => [EmptyString]
  | String a r =>
      if Ascii.eqb a sep then EmptyString :: split r
      else match split r with
           | c :: cs => String a c :: cs
           | [] => [String a EmptyString]
           end
  end.

(** ['/'.join(comps)]. *)
Fixpoint unsplit (comps : list string) : string :=
  match comps with
  | [] => EmptyString
  | [c] => c
  | c :: cs => c +:+ "/" +:+ unsplit cs
  end.

(** The loop of [normpath] over the components; [acc] is [new_comps]
    with its last element first. *)
Fixpoint norm_comps (initial_slashes : bool) (acc comps : list string)
  : list string :=
  match comps with
  | [] => rev acc
  | comp :: rest =>
      if String.eqb comp "" || String.eqb comp "." then
        norm_comps initial_slashes acc rest
      else if negb (String.eqb comp "..")
              || (negb initial_slashes && bool_decide (acc = []))
              || match acc with
                 | last :: _ => String.eqb last ".."
                 | [] => false
                 end
      then norm_comps initial_slashes (comp :: acc) rest
      else norm_comps initial_slashes (tl acc) rest
  end.

(** [os.path.normpath]. *)
Definition normpath (p : string) : string :=
  if String.eqb p "" then "."
  else
    let initial_slashes : string :=
      if startswith_sep p then
        if String.prefix "//" p && negb (String.prefix "///" p)
        then "//" else "/"
      else "" in
    let body := unsplit (norm_comps (startswith_sep p) [] (split p)) in
    let r := initial_slashes +:+ body in
    if String.eqb r "" then "." else r.

(** [os.path.abspath], in the working directory [cwd]. *)
Definition abspath (cwd p : string) : string :=
  normpath (if startswith_sep p then p else join cwd p).

(** [fnmatch(name, '*.tif*')]: the name contains [.tif]. *)
Fixpoint match_tif (name : string) : bool :=
  String.prefix ".tif" name
  || match name with
     | EmptyString => false
     | String _ r => match_tif r
     end.

(** The part of [p] below the directory [dir], when [p] is below it. *)
Definition relative_to (dir p : string) : option string :=
  let d := if endswith_sep dir then dir else dir +:+ "/" in
  if String.prefix d p then Some (drop (String.length d) p) else None.

End path.

(** ** The libraries: numpy scalars and tifffile *)

(** The scalar types of the array library.  [elem_eqb] is [==] on array
    items, [scalar_eqb] is [==] on the values returned by reductions and
    [meta_eqb] is [==] on metadata values; none is assumed reflexive (a
    floating-point NaN differs from itself). *)
Class Scalars := {
  elem : Type;
  elem_eqb : elem -> elem -> bool;
  scalar : Type;
  scalar_eqb : scalar -> scalar -> bool;
  meta_value : Type;
  meta_eqb : meta_value -> meta_value -> bool
}.

(** A [numpy.ndarray]: its shape and its items in row-major order. *)
Record ndarray `{Scalars} := Ndarray {
  shape : list nat;
  data : list elem
}.

(** The number of items a shape calls for. *)
Definition shape_size (s : list nat) : nat := fold_right Nat.mul 1%nat s.


(** A TIFF file once opened ([tifffile.TiffFile]): what [asarray()]
    returns or raises, the shapes of its series, and the ImageJ metadata
    dictionary, if any. *)
Record tiff `{Scalars} := Tiff {
  asarray : result ndarray;
  series : list (list nat);
  imagej_metadata : option (gmap string meta_value)
}.

Class Libraries `{Scalars} := {
  (** [tifffile.TiffFile] on the bytes of a file. *)
  tiff_open : list byte -> result tiff;
  (** [tifffile.imwrite(path, data, compression=, metadata=, imagej=)]:
      the bytes written, or the error raised. *)
  imwrite : ndarray -> string -> option (gmap string meta_value) -> bool
            -> result (list byte);
  (** [np.min], [np.max], [np.mean] and [np.std] on a non-empty array. *)
  np_min : ndarray -> scalar;
  np_max : ndarray -> scalar;
  np_mean : ndarray -> scalar;
  np_std : ndarray -> scalar;
  (** [os.getcwd()]. *)
  getcwd : string
}.

(** ** The file system *)

(** The regular files by path, and the paths the operating system refuses
    to remove (a read-only file on Windows, a file held open by another
    process, a file of another user in a sticky directory).  Directories are
    implicit in the paths.

    Two things are outside this model.  Every path names a file of its own:
    there are no hard or symbolic links, under which writing at one path
    changes what is read at another.  And a path that is not a regular file
    is a missing file: directories given where a file is expected, missing
    parent directories and permissions to read or write are not
    represented. *)
Record filesystem := Filesystem {
  files : gmap string (list byte);
  locked : gset string
}.

Definition quoted (p : string) : string := "'" +:+ p +:+ "'".

Definition no_such_file (p : string) : exn :=
  Exn FileNotFoundError ("[Errno 2] No such file or directory: " +:+ quoted p).

(** [open(path, 'rb').read()]. *)
Definition read_bytes (fs : filesystem) (p : string) : result (list byte) :=
  match files fs !! p with
  | Some b => Ok b
  | None => Raise (no_such_file p)
  end.

(** [os.path.getsize] of a regular file; for any other path the model has
    the error of a missing file only. *)
Definition getsize (fs : filesystem) (p : string) : result Z :=
  (b <- read_bytes fs p ;; Ok (Z.of_nat (length b)))%result.

(** [os.path.isfile]. *)
Definition isfile (fs : filesystem) (p : string) : bool :=
  bool_decide (is_Some (files fs !! p)).

(** [os.remove]. *)
Definition os_remove (fs : filesystem) (p : string) : result filesystem :=
  match files fs !! p with
  | None => Raise (no_such_file p)
  | Some _ =>
      if decide (p ∈ locked fs)
      then Raise (Exn PermissionError
                    ("[Errno 13] Permission denied: " +:+ quoted p))
      else Ok (Filesystem (delete p (files fs)) (locked fs))
  end.

(** Writing a file, new or not.  Permission to write is not modelled. *)
Definition write_bytes (fs : filesystem) (p : string) (b : list byte)
  : filesystem :=
  Filesystem (<[p := b]> (files fs)) (locked fs).

(** [Path(dir).glob('**/*.tif*')]: the regular files anywhere below [dir]
    whose name contains [.tif] (a directory with such a name is not
    listed). *)
Definition rglob_tif (fs : filesystem) (dir : string) : list string :=
  List.filter (fun p => match path.relative_to dir p with
                        | Some _ => path.match_tif (path.basename p)
                        | None => false
                        end)
              (elements (dom (files fs))).

(** [Path(dir).glob('*.tif*')]: the regular files directly in [dir] whose
    name contains [.tif]. *)
Definition glob_tif (fs : filesystem) (dir : string) : list string :=
  List.filter (fun p => match path.relative_to dir p with
                        | Some r => (path.rfind path.sep r =? -1)
                                    && path.match_tif r
                        | None => false
                        end)
              (elements (dom (files fs))).

(** ** [compression_check.py]: the verifier *)

Section TiffVerifier.
Context `{Libraries}.

(** [tifffile.TiffFile(path)]. *)
Definition TiffFile (fs : filesystem) (p : string) : result tiff :=
  (b <- read_bytes fs p ;; tiff_open b)%result.

(** [tifffile.imread(path)]. *)
Definition imread (fs : filesystem) (p : string) : result ndarray :=
  (t <- TiffFile fs p ;; asarray t)%result.

(** [a == b] item by item, then [.all()], for arrays of one shape. *)
Fixpoint all_equal (a b : list elem) : bool :=
  match a, b with
  | x :: a', y :: b' => elem_eqb x y && all_equal a' b'
  | _, _ => true
  end.

(** [np.array_equal]. *)
Definition array_equal (a b : ndarray) : bool :=
  bool_decide (shape a = shape b) && all_equal (data a) (data b).

Definition verify_pixel_values (fs : filesystem)
    (original_path compressed_path : string) : result bool :=
  rcatch
    (original <- imread fs original_path ;;
     compressed <- imread fs compressed_path ;;
     if bool_decide (shape original ≠ shape compressed)
     then Ok false
     else Ok (array_equal original compressed))%result
    (fun e => Raise (Exn Exception ("Pixel comparison failed: " +:+ exn_str e))).

(** The loop [for chunk in iter(lambda: f.read(size), b'')] feeding
    [hash_md5.update]: [pending] is what is left of the file, [fed] what
    the hash object has received.  Every round but the last consumes at
    least one byte, so one round more than the file has bytes is enough. *)
Fixpoint read_chunks (size fuel : nat) (pending fed : list byte)
  : list byte :=
  match fuel with
  | O => fed
  | S fuel' =>
      match firstn size pending with
      | [] => fed
      | chunk => read_chunks size fuel' (skipn size pending) (fed ++ chunk)
      end
  end.

Definition get_file_hash (fs : filesystem) (file_path : string)
  : result string :=
  (content <- read_bytes fs file_path ;;
   Ok (MD5.hexdigest (read_chunks 4096 (S (length content)) content [])))%result.

Definition verify_file_hashes (fs : filesystem)
    (original_path compressed_path : string) : result bool :=
  (original_hash <- get_file_hash fs original_path ;;
   compressed_hash <- get_file_hash fs compressed_path ;;
   Ok (negb (String.eqb original_hash compressed_hash)))%result.

(** [tif.series[0].shape]. *)
Definition series0_shape (t : tiff) : result (list nat) :=
  match series t with
  | s :: _ => Ok s
  | [] => Raise (Exn IndexError "list index out of range")
  end.

Definition verify_dimensions (fs : filesystem)
    (original_path compressed_path : string) : result bool :=
  (orig <- TiffFile fs original_path ;;
   orig_shape <- series0_shape orig ;;
   comp <- TiffFile fs compressed_path ;;
   comp_shape <- series0_shape comp ;;
   Ok (bool_decide (orig_shape = comp_shape)))%result.

(** [x == y] where each side is a metadata value or [None]. *)
Definition get_eqb (x y : option meta_value) : bool :=
  match x, y with
  | Some u, Some v => meta_eqb u v
  | None, None => true
  | _, _ => false
  end.

Definition crucial_fields : list string := ["frames"; "slices"; "channels"].

Definition verify_metadata (fs : filesystem)
    (original_path compressed_path : string) : result bool :=
  (orig <- TiffFile fs original_path ;;
   comp <- TiffFile fs compressed_path ;;
   match imagej_metadata orig, imagej_metadata comp with
   | None, None => Ok true
   | Some orig_meta, Some comp_meta =>
       Ok (forallb (fun field => get_eqb (orig_meta !! field) (comp_meta !! field))
             (filter (fun field => is_Some (orig_meta !! field)) crucial_fields))
   | _, _ => Ok false
   end)%result.

(** A reduction with no identity raises on an array without items. *)
Definition zero_size : exn :=
  Exn ValueError
    "zero-size array to reduction operation minimum which has no identity".

Definition verify_statistics (fs : filesystem)
    (original_path compressed_path : string) : result bool :=
  (original <- imread fs original_path ;;
   compressed <- imread fs compressed_path ;;
   match data original, data compressed with
   | [], _ | _, [] => Raise zero_size
   | _, _ =>
       let stats_match :=
         [ ("min", scalar_eqb (np_min original) (np_min compressed));
           ("max", scalar_eqb (np_max original) (np_max compressed));
           ("mean", scalar_eqb (np_mean original) (np_mean compressed));
           ("std", scalar_eqb (np_std original) (np_std compressed)) ] in
       Ok (forallb snd stats_match)
   end)%result.

(** The dictionary returned by [verify_all], in insertion order. *)
Definition verify_all (fs : filesystem)
    (original_path compressed_path : string) : result (list (string * bool)) :=
  (pixels <- verify_pixel_values fs original_path compressed_path ;;
   hashes <- verify_file_hashes fs original_path compressed_path ;;
   dims <- verify_dimensions fs original_path compressed_path ;;
   meta <- verify_metadata fs original_path compressed_path ;;
   stats <- verify_statistics fs original_path compressed_path ;;
   Ok [ ("pixel_values_match", pixels);
        ("file_hash_different", hashes);
        ("dimensions_match", dims);
        ("metadata_matches", meta);
        ("statistical_match", stats) ])%result.

End TiffVerifier.

(** ** The state of the application *)

Inductive messagebox := showinfo (title message : string)
                      | showerror (title message : string).

(** The file system, what [print] has written, and the widgets of the
    window: the two variables the user sets ([path_var], [compression_var]),
    the progress label and bar, the text of the result log and the modal
    dialogs shown so far. *)
Record world := World {
  fsys : filesystem;
  stdout : list string;
  path_var : string;
  compression_var : string;
  progress_var : string;
  progress_bar : Q;
  results_text : list string;
  dialogs : list messagebox
}.

(** Computations that change the world and may raise.  What was done
    before an exception stays done. *)
Definition M (A : Type) : Type := world -> result A * world.

Definition mret {A} (a : A) : M A := fun w => (Ok a, w).

Definition mraise {A} (e : exn) : M A := fun w => (Raise e, w).

Definition mbind {A B} (m : M A) (k : A -> M B) : M B :=
  fun w => match m w with
           | (Ok a, w') => k a w'
           | (Raise e, w') => (Raise e, w')
           end.

(** [try: m  except Exception as e: h e]. *)
Definition mcatch {A} (m : M A) (h : exn -> M A) : M A :=
  fun w => match m w with
           | (Ok a, w') => (Ok a, w')
           | (Raise e, w') => h e w'
           end.

(** A computation that only reads the file system. *)
Definition reading {A} (f : filesystem -> result A) : M A :=
  fun w => (f (fsys w), w).

Definition pure {A} (r : result A) : M A := fun w => (r, w).

Definition set_fsys (fs : filesystem) : M unit :=
  fun w => (Ok tt, World fs (stdout w) (path_var w) (compression_var w)
                     (progress_var w) (progress_bar w) (results_text w)
                     (dialogs w)).

Definition print (line : string) : M unit :=
  fun w => (Ok tt, World (fsys w) (stdout w ++ [line]) (path_var w)
                     (compression_var w) (progress_var w) (progress_bar w)
                     (results_text w) (dialogs w)).

Definition set_progress_var (s : string) : M unit :=
  fun w => (Ok tt, World (fsys w) (stdout w) (path_var w) (compression_var w)
                     s (progress_bar w) (results_text w) (dialogs w)).

Definition set_progress_bar (v : Q) : M unit :=
  fun w => (Ok tt, World (fsys w) (stdout w) (path_var w) (compression_var w)
                     (progress_var w) v (results_text w) (dialogs w)).

Definition set_results_text (l : list string) : M unit :=
  fun w => (Ok tt, World (fsys w) (stdout w) (path_var w) (compression_var w)
                     (progress_var w) (progress_bar w) l (dialogs w)).

Definition show (d : messagebox) : M unit :=
  fun w => (Ok tt, World (fsys w) (stdout w) (path_var w) (compression_var w)
                     (progress_var w) (progress_bar w) (results_text w)
                     (dialogs w ++ [d])).

Declare Scope M_scope.
Delimit Scope M_scope with M.
Notation "x <- m ;; k" := (mbind m (fun x => k))
  (at level 100, m at next level, right associativity) : M_scope.
Notation "m ;;; k" := (mbind m (fun _ => k))
  (at level 100, right associativity) : M_scope.

Definition newline : string := String (ascii_of_nat 10) EmptyString.

(** ** [tiff_compression.py]: the compressor *)

Record compression_stats := CompressionStats {
  original_size_mb : Q;
  compressed_size_mb : Q;
  compression_ratio : Q;
  space_saved_mb : Q
}.

Record TiffCompressor := MkTiffCompressor {
  input_path : string;
  original_size : Z
}.

Definition COMPRESSION_METHODS : list (string * (string * string)) :=
  [ ("lzw", ("tiff_lzw", "lzw"));
    ("zip", ("tiff_deflate", "zlib"));
    ("packbits", ("tiff_adobe_deflate", "packbits")) ].

(** [COMPRESSION_METHODS[method]['tifffile_method']]. *)
Definition tifffile_method (method : string) : result string :=
  match List.find (fun kv => String.eqb (fst kv) method) COMPRESSION_METHODS with
  | Some (_, (_, m)) => Ok m
  | None => Raise (Exn KeyError (quoted method))
  end.

Section TiffCompressor.
Context `{Libraries}.

(** [TiffCompressor.__init__]. *)
Definition TiffCompressor_init (input_path : string) : M TiffCompressor :=
  (size <- reading (fun fs => getsize fs input_path) ;;
   mret (MkTiffCompressor input_path size))%M.

Definition _get_compression_stats (self : TiffCompressor)
    (output_path : string) : M compression_stats :=
  (compressed_size <- reading (fun fs => getsize fs output_path) ;;
   if original_size self =? 0
   then mraise (Exn ZeroDivisionError "division by zero")
   else
     let mb := inject_Z (1024 * 1024) in
     let o := inject_Z (original_size self) in
     let c := inject_Z compressed_size in
     mret (CompressionStats
             (o / mb) (c / mb)
             ((1 - c / o) * inject_Z 100)
             ((o - c) / mb))%Q)%M.

(** [True if metadata else False]. *)
Definition truthy (metadata : option (gmap string meta_value)) : bool :=
  match metadata with
  | Some m => negb (bool_decide (m = ∅))
  | None => false
  end.

Definition compress_with_tifffile (self : TiffCompressor)
    (output_path method : string) : M compression_stats :=
  mcatch
    (tif <- reading (fun fs => TiffFile fs (input_path self)) ;;
     data <- pure (asarray tif) ;;
     let metadata := imagej_metadata tif in
     compression <- pure (tifffile_method method) ;;
     written <- pure (imwrite data compression metadata (truthy metadata)) ;;
     fs <- (fun w => (Ok (fsys w), w)) ;;
     set_fsys (write_bytes fs output_path written) ;;;
     _get_compression_stats self output_path)%M
    (fun e => mraise (Exn Exception
                        ("Tifffile compression failed: " +:+ exn_str e))).

(** The name [compress_file] gives to its output. *)
Definition compressed_name (file compression_type : string) : string :=
  let folder := path.abspath getcwd (path.join file path.pardir) in
  let name := path.join folder (fst (path.splitext (path.basename file))) in
  name +:+ "_compressed_" +:+ compression_type +:+ ".tif".

Definition compress_file (file compression_type : string) : M string :=
  (compressor <- TiffCompressor_init file ;;
   compress_with_tifffile compressor
     (compressed_name file compression_type) compression_type ;;;
   mret (compressed_name file compression_type))%M.

(** [output_dir.mkdir(exist_ok=True)]: directories are implicit, so the
    call only fails when the path is a regular file; the error for a missing
    parent directory is not represented. *)
Definition mkdir_exist_ok (dir : string) : M unit :=
  (is_file <- reading (fun fs => Ok (isfile fs dir)) ;;
   if is_file : bool
   then mraise (Exn FileExistsError
                  ("[Errno 17] File exists: " +:+ quoted dir))
   else mret tt)%M.

(** The body of the loop of [batch_compress_directory]. *)
Definition batch_compress_one (output_dir method : string)
    (results : list (string * compression_stats)) (tiff_file : string)
  : M (list (string * compression_stats)) :=
  mcatch
    (compressor <- TiffCompressor_init tiff_file ;;
     let output_path :=
       path.join output_dir ("compressed_" +:+ path.basename tiff_file) in
     stats <- compress_with_tifffile compressor output_path method ;;
     mret (results ++ [(path.basename tiff_file, stats)]))%M
    (fun e => print ("Error processing " +:+ tiff_file +:+ ": " +:+ exn_str e) ;;;
              mret results)%M.

Fixpoint batch_loop (output_dir method : string) (todo : list string)
    (results : list (string * compression_stats))
  : M (list (string * compression_stats)) :=
  match todo with
  | [] => mret results
  | tiff_file :: rest =>
      (results' <- batch_compress_one output_dir method results tiff_file ;;
       batch_loop output_dir method rest results')%M
  end.

Definition batch_compress_directory (input_dir output_dir method : string)
  : M (list (string * compression_stats)) :=
  (mkdir_exist_ok output_dir ;;;
   todo <- reading (fun fs => Ok (glob_tif fs input_dir)) ;;
   batch_loop output_dir method todo [])%M.

(** [check_compression(original, compressed)], without the plot. *)
Definition check_compression (original compressed : string) : M bool :=
  (results <- reading (fun fs => verify_all fs original compressed) ;;
   if forallb snd results
   then print (original +:+ " : Compression successful with no data loss!") ;;;
        mret true
   else print "Issues detected:" ;;;
        fold_right
          (fun tp k => if snd tp : bool then k
                       else (print ("- Failed: " +:+ fst tp) ;;; k)%M)
          (mret false) results)%M.

Definition compress_and_check (file : string) : M unit :=
  (compressed_filename <- compress_file file "zip" ;;
   check_compression file compressed_filename ;;;
   mret tt)%M.

End TiffCompressor.

(** ** [tiff_compression_gui.py]: the file manager behind the window *)

Section TiffCompressorGUI.
Context `{Libraries}.

Definition add_result (text : string) : M unit :=
  fun w => set_results_text (results_text w ++ [text]) w.

(** [os.remove(path)] on the world. *)
Definition remove (p : string) : M unit :=
  (fs' <- reading (fun fs => os_remove fs p) ;; set_fsys fs')%M.

Definition manage_files (original_path compressed_path : string)
    (compression_successful : bool) : M string :=
  mcatch
    (if compression_successful
     then remove original_path ;;;
          add_result ("Original file deleted: "
                      +:+ path.basename original_path +:+ newline) ;;;
          mret compressed_path
     else remove compressed_path ;;;
          add_result ("Compressed file deleted: "
                      +:+ path.basename compressed_path +:+ newline) ;;;
          mret original_path)%M
    (fun e => add_result ("Error managing files: " +:+ exn_str e +:+ newline) ;;;
              mret original_path)%M.

Fixpoint dashes (n : nat) : string :=
  match n with
  | O => EmptyString
  | S n' => String "-" (dashes n')
  end.

Definition compress_single_file (file_path : string) : M unit :=
  (set_progress_bar (inject_Z 33) ;;;
   method <- (fun w => (Ok (compression_var w), w)) ;;
   compressed_path <- compress_file file_path method ;;
   set_progress_bar (inject_Z 66) ;;;
   success <- check_compression file_path compressed_path ;;
   add_result ("File: " +:+ path.basename file_path +:+ newline) ;;;
   add_result ("Compressed to: " +:+ path.basename compressed_path +:+ newline) ;;;
   add_result ("Verification: "
               +:+ (if success : bool then "Success" else "Failed") +:+ newline) ;;;
   kept_file <- manage_files file_path compressed_path success ;;
   add_result ("Kept file: " +:+ path.basename kept_file +:+ newline) ;;;
   add_result (dashes 50 +:+ newline))%M.

(** The loop of [compress_folder]: [i] counts the files from 1. *)
Fixpoint folder_loop (total_files : nat) (i : nat) (todo : list string)
  : M unit :=
  match todo with
  | [] => mret tt
  | file_path :: rest =>
      (set_progress_bar
         (inject_Z (Z.of_nat i) / inject_Z (Z.of_nat total_files)
          * inject_Z 100)%Q ;;;
       set_progress_var ("Processing file " +:+ pretty i +:+ " of "
                         +:+ pretty total_files) ;;;
       compress_single_file file_path ;;;
       folder_loop total_files (S i) rest)%M
  end.

Definition compress_folder (folder_path : string) : M unit :=
  (tiff_files <- reading (fun fs => Ok (rglob_tif fs folder_path)) ;;
   let total_files := length tiff_files in
   if (total_files =? 0)%nat
   then add_result ("No TIFF files found in the selected folder." +:+ newline)
   else folder_loop total_files 1 tiff_files)%M.

(** The handler of the Compress button. *)
Definition compress : M unit :=
  (path <- (fun w => (Ok (path_var w), w)) ;;
   if String.eqb path ""
   then show (showerror "Error" "Please select a file or folder first")
   else
     set_results_text [] ;;;
     set_progress_var "Processing..." ;;;
     set_progress_bar (inject_Z 0) ;;;
     mcatch
       (is_file <- reading (fun fs => Ok (isfile fs path)) ;;
        (if is_file : bool
         then compress_single_file path
         else compress_folder path) ;;;
        set_progress_var "Compression completed!" ;;;
        set_progress_bar (inject_Z 100) ;;;
        show (showinfo "Success" "Compression completed successfully!"))
       (fun e =>
          set_progress_var "Error occurred!" ;;;
          show (showerror "Error" ("An error occurred: " +:+ exn_str e))))%M.

End TiffCompressorGUI.

(** ** A small instance of the libraries

    Integer images in a toy container, on which the functions above can be
    run: four magic bytes, a compression tag, an optional frame count, the
    dimensions and one byte per pixel.  Statistics are exact rationals, the
    values the reductions have mathematically; the standard deviation is
    represented by its square.  What numpy computes for the same images is
    in [Float64] below. *)

Module Sample.

Definition scalars : Scalars :=
  {| elem := Z; elem_eqb := Z.eqb;
     scalar := Q; scalar_eqb := Qeq_bool;
     meta_value := Z; meta_eqb := Z.eqb |}.

Definition magic : list Z := [0x49; 0x49; 0x2A; 0x00].

Definition tag_of (compression : string) : result Z :=
  if String.eqb compression "none" then Ok 1
  else if String.eqb compression "lzw" then Ok 5
  else if String.eqb compression "zlib" then Ok 8
  else if String.eqb compression "packbits" then Ok 7
  else Raise (Exn ValueError ("unknown compression " +:+ compression)).

Definition encode (a : @ndarray scalars) (tag : Z)
    (frames : option Z) : list byte :=
  map byte_of_Z
    (magic ++ [tag]
     ++ match frames with Some v => [1; v] | None => [0] end
     ++ [Z.of_nat (length (shape a))]
     ++ map Z.of_nat (shape a)
     ++ data a).

Definition imwrite (a : @ndarray scalars) (compression : string)
    (metadata : option (gmap string Z)) (imagej : bool) : result (list byte) :=
  (tag <- tag_of compression ;;
   Ok (encode a tag (if imagej then metadata ≫= (.!! "frames") else None)))%result.

Definition decode_body (body : list Z) (frames : option Z)
  : result (@tiff scalars) :=
  match body with
  | ndim :: rest =>
      let dims := map Z.to_nat (firstn (Z.to_nat ndim) rest) in
      let pixels := skipn (Z.to_nat ndim) rest in
      if (length rest <? Z.to_nat ndim)%nat
      then Raise (Exn TiffFileError "corrupted header")
      else
        Ok (@Tiff scalars
              (if (length pixels =? shape_size dims)%nat
               then Ok (@Ndarray scalars dims pixels)
               else Raise (Exn ValueError "cannot decode the image data"))
              [dims]
              ((fun v => {["frames" := v]}) <$> frames))
  | [] => Raise (Exn TiffFileError "corrupted header")
  end.

Definition tiff_open (b : list byte) : result (@tiff scalars) :=
  match map byte_to_Z b with
  | 0x49 :: 0x49 :: 0x2A :: 0x00 :: _ :: 0 :: body => decode_body body None
  | 0x49 :: 0x49 :: 0x2A :: 0x00 :: _ :: 1 :: v :: body =>
      decode_body body (Some v)
  | _ => Raise (Exn TiffFileError "not a TIFF file")
  end.

Definition sum (l : list Z) : Z := fold_right Z.add 0 l.

Definition np_min (a : @ndarray scalars) : Q :=
  inject_Z (fold_right Z.min (hd 0 (data a)) (data a)).

Definition np_max (a : @ndarray scalars) : Q :=
  inject_Z (fold_right Z.max (hd 0 (data a)) (data a)).

Definition np_mean (a : @ndarray scalars) : Q :=
  (inject_Z (sum (data a)) / inject_Z (Z.of_nat (length (data a))))%Q.

Definition np_std (a : @ndarray scalars) : Q :=
  (inject_Z (sum (map (fun x => x * x)%Z (data a)))
   / inject_Z (Z.of_nat (length (data a)))
   - np_mean a * np_mean a)%Q.

Definition libraries : @Libraries scalars :=
  @Build_Libraries scalars tiff_open imwrite np_min np_max np_mean np_std
    "/home/user".

Definition array (dims : list nat) (pixels : list Z) : @ndarray scalars :=
  @Ndarray scalars dims pixels.

(** An uncompressed file holding the given image. *)
Definition raw (dims : list nat) (pixels : list Z) : list byte :=
  encode (array dims pixels) 1 None.

Definition disk (l : list (string * list byte)) : filesystem :=
  Filesystem (list_to_map l) ∅.

Definition start (fs : filesystem) (path method : string) : world :=
  World fs [] path method "Ready" (inject_Z 0) [] [].

(** A stack of two 2x2 frames. *)
Definition stack : list byte := raw [2; 2; 2]%nat [1; 2; 3; 4; 5; 6; 7; 8].

(** The same stack as [compress_file] writes it with the ZIP method. *)
Definition stack_zip : list byte :=
  encode (array [2; 2; 2]%nat [1; 2; 3; 4; 5; 6; 7; 8]) 8 None.

(** The stack with its pixels in reverse order, and with one pixel
    changed. *)
Definition reversed : list byte := raw [2; 2; 2]%nat [8; 7; 6; 5; 4; 3; 2; 1].
Definition altered : list byte := raw [2; 2; 2]%nat [1; 2; 3; 4; 5; 6; 7; 9].


(** The stack with ImageJ metadata giving two, or three, frames. *)
Definition tagged (frames : Z) : list byte :=
  encode (array [2; 2; 2]%nat [1; 2; 3; 4; 5; 6; 7; 8]) 1 (Some frames).

(** A disk with one image whose removal the system refuses. *)
Definition locked_world : world :=
  World (Filesystem {["/data/a.tif" := stack]} {["/data/a.tif"]})
    [] "/data/a.tif" "zip" "Ready" (inject_Z 0) [] [].

(** Bytes that are not a TIFF file. *)
Definition garbage : list byte := bytes_of_string "not an image".

(** The two 128-byte messages of Wang and Yu with one MD5 digest. *)
Definition collision1 : list byte := bytes_fromhex
  ("d131dd02c5e6eec4693d9a0698aff95c2fcab58712467eab4004583eb8fb7f89"
   +:+ "55ad340609f4b30283e488832571415a085125e8f7cdc99fd91dbdf280373c5b"
   +:+ "d8823e3156348f5bae6dacd436c919c6dd53e2b487da03fd02396306d248cda0"
   +:+ "e99f33420f577ee8ce54b67080a80d1ec69821bcb6a8839396f9652b6ff72a70").

Definition collision2 : list byte := bytes_fromhex
  ("d131dd02c5e6eec4693d9a0698aff95c2fcab50712467eab4004583eb8fb7f89"
   +:+ "55ad340609f4b30283e4888325f1415a085125e8f7cdc99fd91dbd7280373c5b"
   +:+ "d8823e3156348f5bae6dacd436c919c6dd53e23487da03fd02396306d248cda0"
   +:+ "e99f33420f577ee8ce54b67080280d1ec69821bcb6a8839396f965ab6ff72a70").

(** A disk with one image, selected in the window. *)
Definition single_world : world :=
  start (disk [("/a.tif", stack)]) "/a.tif" "zip".

(** A folder whose first file is not an image and whose second is. *)
Definition folder_world : world :=
  start (disk [("/data/a.tif", garbage); ("/data/b.tif", stack)])
    "/data" "zip".

End Sample.

(** ** The reductions of numpy on integer images

    What [np.min], [np.max], [np.mean] and [np.std] return for an array of
    integers.  Minimum and maximum are items of the array.  Mean and
    standard deviation are binary64 numbers, computed with the operations of
    IEEE 754 (round to nearest even) in the order in which numpy applies
    them, so that their values depend on the order of the items.  The
    container is the one of [Sample]. *)

Module Float64.

(** The binary64 format: 53 bits of precision, exponents below 1024. *)
Definition float : Type := SpecFloat.spec_float.

Definition prec : Z := 53.
Definition emax : Z := 1024.

(** The conversion of an integer, rounded to the nearest float (exact for
    integers of at most 53 bits). *)
Definition of_Z (z : Z) : float :=
  SpecFloat.binary_normalize prec emax z 0 false.

Definition add : float -> float -> float := SpecFloat.SFadd prec emax.
Definition sub : float -> float -> float := SpecFloat.SFsub prec emax.
Definition mul : float -> float -> float := SpecFloat.SFmul prec emax.
Definition div : float -> float -> float := SpecFloat.SFdiv prec emax.
Definition sqrt : float -> float := SpecFloat.SFsqrt prec emax.

(** A scalar returned by a reduction: an integer of the type of the items,
    or a float64. *)
Inductive number := Int (z : Z) | Float (x : float).

(** [==] on scalars: on floats the equality of IEEE 754, under which a NaN
    differs from itself. *)
Definition number_eqb (a b : number) : bool :=
  match a, b with
  | Int x, Int y => x =? y
  | Float x, Float y => SpecFloat.SFeqb x y
  | Int x, Float y => SpecFloat.SFeqb (of_Z x) y
  | Float x, Int y => SpecFloat.SFeqb x (of_Z y)
  end.

Definition scalars : Scalars :=
  {| elem := Z; elem_eqb := Z.eqb;
     scalar := number; scalar_eqb := number_eqb;
     meta_value := Z; meta_eqb := Z.eqb |}.

Definition array (dims : list nat) (pixels : list Z) : @ndarray scalars :=
  @Ndarray scalars dims pixels.

(** The container of [Sample], read into and written from arrays with
    these scalars. *)
Definition tiff_open (b : list byte) : result (@tiff scalars) :=
  (t <- Sample.tiff_open b ;;
   Ok (@Tiff scalars
         (a <- @asarray Sample.scalars t ;;
          Ok (array (@shape Sample.scalars a) (@data Sample.scalars a)))
         (@series Sample.scalars t)
         (@imagej_metadata Sample.scalars t)))%result.

Definition imwrite (a : @ndarray scalars) (compression : string)
    (metadata : option (gmap string Z)) (imagej : bool) : result (list byte) :=
  Sample.imwrite (Sample.array (@shape scalars a) (@data scalars a))
    compression metadata imagej.

(** The items of [l] added to [acc] one after the other. *)
Definition add_each (acc : float) (l : list float) : float :=
  fold_left add l acc.

(** The unrolled loop of the pairwise summation: every further group of
    eight items is added, item by item, to the eight accumulators [r].
    Returns the accumulators and the items left over. *)
Fixpoint add_lanes (groups : nat) (r l : list float)
  : list float * list float :=
  match groups with
  | O => (r, l)
  | S groups' =>
      add_lanes groups' (zip_with add r (firstn 8 l)) (skipn 8 l)
  end.

(** The pairwise summation of numpy's [add] loop over a contiguous run of
    [n] floats: fewer than 8 items are added one after the other; up to 128
    items go through eight accumulators, which are then added in pairs,
    followed by the [n mod 8] items left over; a longer run is split in two
    parts, the first of [n / 2] items rounded down to a multiple of 8, and
    the sums of the parts are added.  The length of the run is enough
    [fuel] (lemma [pairwise_sum_fuel]). *)
Fixpoint pairwise_sum (fuel : nat) (l : list float) : float :=
  let n := length l in
  if (n <? 8)%nat then add_each (of_Z 0) l
  else if (n <=? 128)%nat then
    match add_lanes (n / 8 - 1) (firstn 8 l) (skipn 8 l) with
    | ([r0; r1; r2; r3; r4; r5; r6; r7], rest) =>
        add_each (add (add (add r0 r1) (add r2 r3))
                      (add (add r4 r5) (add r6 r7))) rest
    | _ => of_Z 0
    end
  else
    match fuel with
    | O => of_Z 0
    | S fuel' =>
        let n2 := (n / 2 - (n / 2) mod 8)%nat in
        add (pairwise_sum fuel' (firstn n2 l))
            (pairwise_sum fuel' (skipn n2 l))
    end.

(** [np.add.reduce] over all the items of a float64 array, in the order
    of storage: the pairwise sum of the whole array added to the identity
    of addition. *)
Definition add_reduce (l : list float) : float :=
  add (of_Z 0) (pairwise_sum (length l) l).

(** The size of the buffer through which the items of an array of another
    type are converted ([np.getbufsize()]). *)
Definition bufsize : nat := Z.to_nat 8192.

(** The pairwise sum of each buffer in turn, added to the running sum. *)
Fixpoint add_buffers (fuel : nat) (acc : float) (l : list float) : float :=
  match fuel, l with
  | S fuel', _ :: _ =>
      add_buffers fuel'
        (add acc (pairwise_sum bufsize (firstn bufsize l))) (skipn bufsize l)
  | _, _ => acc
  end.

(** [np.add.reduce(arr, dtype=float64)] over all the items of an array of
    integers. *)
Definition add_reduce_cast (l : list Z) : float :=
  add_buffers (length l) (of_Z 0) (map of_Z l).

Definition count (a : @ndarray scalars) : float :=
  of_Z (Z.of_nat (length (@data scalars a))).

(** [np.mean]: the sum, in float64, divided by the number of items. *)
Definition mean (a : @ndarray scalars) : float :=
  div (add_reduce_cast (@data scalars a)) (count a).

(** The variance behind [np.std]: the deviations [arr - arrmean] as a
    float64 array, squared item by item, summed and divided by the number
    of items. *)
Definition var (a : @ndarray scalars) : float :=
  let arrmean := mean a in
  let x := map (fun item => sub (of_Z item) arrmean) (@data scalars a) in
  let x := map (fun d => mul d d) x in
  div (add_reduce x) (count a).

Definition np_min (a : @ndarray scalars) : number :=
  Int (fold_right Z.min (hd 0 (@data scalars a)) (@data scalars a)).

Definition np_max (a : @ndarray scalars) : number :=
  Int (fold_right Z.max (hd 0 (@data scalars a)) (@data scalars a)).

Definition np_mean (a : @ndarray scalars) : number := Float (mean a).

Definition np_std (a : @ndarray scalars) : number := Float (sqrt (var a)).

Definition libraries : @Libraries scalars :=
  @Build_Libraries scalars tiff_open imwrite np_min np_max np_mean np_std
    "/home/user".

End Float64.

(** ** Vocabulary of the statements *)

(** The run of [m] from [w] creates the file [p] or changes its content. *)
Definition written_by {A} (m : M A) (w : world) (p : string) : Prop :=
  files (fsys (snd (m w))) !! p <> files (fsys w) !! p.

(** Two worlds with the same disk and the same result log. *)
Definition same_disk (w v : world) : Prop :=
  fsys w = fsys v /\ results_text w = results_text v
  /\ compression_var w = compression_var v.

Ltac run_monad :=
  unfold mbind, mcatch, mret, mraise, reading, pure, set_fsys, print,
    set_progress_bar, set_progress_var, set_results_text, show in *;
  cbn [fsys stdout path_var compression_var progress_var progress_bar
       results_text dialogs fst snd] in *.

(** Case analysis on a scrutinee of the goal that holds no other case
    analysis. *)
Ltac case_inner :=
  match goal with
  | |- context [match ?x with _ => _ end] =>
      lazymatch x with
      | context [match _ with _ => _ end] => fail
      | _ => destruct x eqn:?
      end
  end.

(** [m] leaves the component [f] of the world as it was, whatever it
    returns. *)
Definition keeps {A T} (f : world -> T) (m : M A) : Prop :=
  forall w, f (snd (m w)) = f w.

(** The world [w] with the disk [fs]. *)
Definition on_disk (w : world) (fs : filesystem) : world :=
  snd (set_fsys fs w).

(** The bytes [compress_with_tifffile] has to write for the input at
    [input_path]: what [imwrite] returns for the array and the metadata read
    from it, or the first error on the way. *)
Definition recompressed `{Libraries} (fs : filesystem)
    (input_path method : string) : result (list byte) :=
  (tif <- TiffFile fs input_path ;;
   data <- asarray tif ;;
   compression <- tifffile_method method ;;
   imwrite data compression (imagej_metadata tif)
     (truthy (imagej_metadata tif)))%result.


(** A name that [normpath] keeps as a component: not empty, not [.] or
    [..], and without separator. *)
Definition plain_name (n : string) : Prop :=
  path.rfind path.sep n = -1 /\ n <> "" /\ n <> "." /\ n <> "..".

(** The world in which the handler of the Compress button starts the
    work: the log emptied and the progress widgets reset. *)
Definition cleared (w : world) : world :=
  World (fsys w) (stdout w) (path_var w) (compression_var w)
    "Processing..." (inject_Z 0) [] (dialogs w).

(** The flow the handler runs for the selected path. *)
Definition selected_flow `{Libraries} (w : world) : M unit :=
  if isfile (fsys w) (path_var w)
  then compress_single_file (path_var w)
  else compress_folder (path_var w).

(** * Properties *)

(** The test suite of RFC 1321, section A.5. *)
Example md5_empty : MD5.hexdigest [] = "d41d8cd98f00b204e9800998ecf8427e"%string.
Proof. vm_compute. reflexivity. Qed.

Example md5_abc :
  MD5.hexdigest (bytes_of_string "abc") = "900150983cd24fb0d6963f7d28e17f72"%string.
Proof. vm_compute. reflexivity. Qed.

Example md5_alphabet :
  MD5.hexdigest (bytes_of_string "abcdefghijklmnopqrstuvwxyz")
  = "c3fcd3d76192e4007dfb496cca67e13b"%string.
Proof. vm_compute. reflexivity. Qed.

Example md5_collision :
  Sample.collision1 ≠ Sample.collision2
  ∧ MD5.hexdigest Sample.collision1 = "79054025255fb1a26e4bc422aef54eb4"%string
  ∧ MD5.hexdigest Sample.collision2 = "79054025255fb1a26e4bc422aef54eb4"%string.
Proof. split; [|split]; vm_compute; [discriminate | reflexivity..]. Qed.


(** ** Strings and paths *)

Lemma append_cons (x : ascii) (a b : string) :
  String x a +:+ b = String x (a +:+ b).
Proof. reflexivity. Qed.

Lemma append_nil_l (b : string) : "" +:+ b = b.
Proof. reflexivity. Qed.

Lemma append_assoc (a b c : string) : (a +:+ b) +:+ c = a +:+ (b +:+ c).
Proof.
  induction a as [|x a IH]; [reflexivity |].
  now rewrite !append_cons, IH.
Qed.

Lemma append_nil_r (a : string) : a +:+ "" = a.
Proof.
  induction a as [|x a IH]; [reflexivity |]. now rewrite append_cons, IH.
Qed.

Lemma append_inv_head (a b c : string) : a +:+ b = a +:+ c -> b = c.
Proof.
  induction a as [|x a IH]; [easy |].
  rewrite !append_cons. intros E. injection E. exact IH.
Qed.

Lemma take_drop (n : nat) (s : string) : path.take n s +:+ path.drop n s = s.
Proof.
  revert s; induction n as [|n IH]; intros [|a r]; try reflexivity.
  cbn [path.take path.drop]. now rewrite append_cons, IH.
Qed.

Lemma rfind_lower (c : ascii) (s : string) : -1 <= path.rfind c s.
Proof.
  induction s as [|a r IH]; simpl; [lia |].
  destruct (0 <=? path.rfind c r) eqn:E; [lia |].
  destruct (Ascii.eqb a c); lia.
Qed.

(** The character at the index [rfind] returns is the one looked for. *)
Lemma drop_rfind (c : ascii) (s : string) :
  0 <= path.rfind c s ->
  exists r, path.drop (Z.to_nat (path.rfind c s)) s = String c r.
Proof.
  induction s as [|a r IH]; simpl; [lia |].
  destruct (0 <=? path.rfind c r) eqn:E.
  - intros _. apply Z.leb_le in E. destruct (IH E) as [t Ht].
    exists t. replace (Z.to_nat (path.rfind c r + 1))
      with (S (Z.to_nat (path.rfind c r))) by lia.
    exact Ht.
  - destruct (Ascii.eqb a c) eqn:Ea; [| lia].
    intros _. apply Ascii.eqb_eq in Ea. subst a. now exists r.
Qed.

Lemma rfind_app (c : ascii) (a b : string) :
  path.rfind c (a +:+ b) =
  if 0 <=? path.rfind c b
  then Z.of_nat (String.length a) + path.rfind c b
  else path.rfind c a.
Proof.
  induction a as [|x a IH].
  - rewrite append_nil_l. cbn [String.length path.rfind].
    destruct (0 <=? path.rfind c b) eqn:E; [lia |].
    apply Z.leb_gt in E. pose proof (rfind_lower c b). lia.
  - rewrite append_cons. cbn [path.rfind String.length]. rewrite IH.
    destruct (0 <=? path.rfind c b) eqn:E.
    + apply Z.leb_le in E.
      replace (0 <=? Z.of_nat (String.length a) + path.rfind c b) with true
        by (symmetry; apply Z.leb_le; lia).
      lia.
    + reflexivity.
Qed.

Lemma rfind_take (c : ascii) (n : nat) (s : string) :
  path.rfind c s = -1 -> path.rfind c (path.take n s) = -1.
Proof.
  intros E. pose proof (rfind_app c (path.take n s) (path.drop n s)) as R.
  rewrite take_drop, E in R.
  destruct (0 <=? path.rfind c (path.drop n s)) eqn:D.
  - apply Z.leb_le in D. lia.
  - congruence.
Qed.

Lemma basename_cons (a : ascii) (r : string) :
  path.basename (String a r) =
  if 0 <=? path.rfind path.sep r then path.basename r
  else if Ascii.eqb a path.sep then r else String a r.
Proof.
  unfold path.basename. cbn [path.rfind].
  pose proof (rfind_lower path.sep r).
  destruct (0 <=? path.rfind path.sep r) eqn:E.
  - apply Z.leb_le in E.
    replace (Z.to_nat (path.rfind path.sep r + 1 + 1))
      with (S (Z.to_nat (path.rfind path.sep r + 1))) by lia.
    reflexivity.
  - apply Z.leb_gt in E. destruct (Ascii.eqb a path.sep); reflexivity.
Qed.

(** A base name holds no separator. *)
Lemma rfind_basename (p : string) : path.rfind path.sep (path.basename p) = -1.
Proof.
  induction p as [|a r IH]; [reflexivity |].
  rewrite basename_cons. pose proof (rfind_lower path.sep r).
  destruct (0 <=? path.rfind path.sep r) eqn:E; [exact IH |].
  apply Z.leb_gt in E. destruct (Ascii.eqb a path.sep) eqn:Ea; [lia |].
  cbn [path.rfind]. replace (0 <=? path.rfind path.sep r) with false
    by (symmetry; apply Z.leb_gt; lia).
  now rewrite Ea.
Qed.

Lemma basename_no_sep (b : string) :
  path.rfind path.sep b = -1 -> path.basename b = b.
Proof. intros E. unfold path.basename. now rewrite E. Qed.

Lemma endswith_sep_rfind (a b : string) :
  path.endswith_sep a = true -> 0 <= path.rfind path.sep (a +:+ b).
Proof.
  induction a as [|x a IH]; [discriminate |].
  intros E. rewrite append_cons. cbn [path.rfind].
  destruct a as [|y a'].
  - cbn [path.endswith_sep] in E. rewrite append_nil_l.
    destruct (0 <=? path.rfind path.sep b); [pose proof (rfind_lower path.sep b); lia |].
    now rewrite E.
  - specialize (IH E).
    replace (0 <=? path.rfind path.sep (String y a' +:+ b)) with true
      by (symmetry; apply Z.leb_le; exact IH).
    lia.
Qed.

(** After a directory prefix, the base name is what follows it. *)
Lemma basename_app (a b : string) :
  a = "" \/ path.endswith_sep a = true ->
  path.rfind path.sep b = -1 ->
  path.basename (a +:+ b) = b.
Proof.
  intros [-> | E] Hb; [now apply basename_no_sep |].
  induction a as [|x a IH]; [discriminate |].
  rewrite append_cons, basename_cons.
  destruct a as [|y a'].
  - cbn [path.endswith_sep] in E. rewrite append_nil_l, Hb.
    change (0 <=? -1) with false. now rewrite E.
  - replace (0 <=? path.rfind path.sep (String y a' +:+ b)) with true
      by (symmetry; apply Z.leb_le; now apply endswith_sep_rfind).
    now apply IH.
Qed.

Lemma endswith_sep_app_sep (a : string) : path.endswith_sep (a +:+ "/") = true.
Proof.
  induction a as [|x a IH]; [reflexivity |].
  rewrite append_cons. cbn [path.endswith_sep].
  destruct (a +:+ "/") eqn:E; [| exact IH].
  destruct a; discriminate.
Qed.

(** [join] puts a directory prefix before a name that holds no separator. *)
Lemma join_no_sep (a b : string) :
  path.rfind path.sep b = -1 ->
  exists pre, path.join a b = pre +:+ b
              /\ (pre = "" \/ path.endswith_sep pre = true).
Proof.
  intros Hb. unfold path.join.
  assert (path.startswith_sep b = false) as ->.
  { destruct b as [|x b]; [reflexivity |]. cbn [path.startswith_sep].
    destruct (Ascii.eqb x path.sep) eqn:E; [| reflexivity].
    cbn [path.rfind] in Hb. rewrite E in Hb.
    pose proof (rfind_lower path.sep b).
    destruct (0 <=? path.rfind path.sep b) eqn:E'; [apply Z.leb_le in E'|]; lia. }
  destruct (String.eqb a "") eqn:Ea.
  - apply String.eqb_eq in Ea. subst a. exists "". auto.
  - cbn [orb]. destruct (path.endswith_sep a) eqn:Es.
    + exists a. auto.
    + exists (a +:+ "/"). split; [symmetry; apply (append_assoc a "/" b) |].
      right. apply endswith_sep_app_sep.
Qed.

(** [splitext] cuts its argument in two, and an extension starts with a
    dot. *)
Lemma splitext_app (p : string) :
  fst (path.splitext p) +:+ snd (path.splitext p) = p.
Proof.
  unfold path.splitext.
  destruct (_ && _); simpl; [apply take_drop | apply append_nil_r].
Qed.

Lemma splitext_ext (p : string) :
  snd (path.splitext p) = "" \/ exists r, snd (path.splitext p) = String "." r.
Proof.
  unfold path.splitext.
  destruct (_ && _) eqn:E; simpl; [right | now left].
  apply andb_true_iff in E as [E _]. apply Z.ltb_lt in E.
  pose proof (rfind_lower path.sep p).
  apply (drop_rfind path.extsep p). lia.
Qed.

Lemma splitext_no_sep (p : string) :
  path.rfind path.sep p = -1 -> path.rfind path.sep (fst (path.splitext p)) = -1.
Proof.
  intros E. unfold path.splitext.
  destruct (_ && _); simpl; [now apply rfind_take | exact E].
Qed.

(** ** The verifier *)

Section VerifierProperties.
Context `{Libraries}.



(** C5. [verify_metadata] on two files that open: true when neither has
    metadata, false when exactly one has, and otherwise true exactly when
    each of [frames], [slices] and [channels] that the original's metadata
    holds is held by the compressed file's metadata with an equal value. *)
Theorem verify_metadata_fields fs original_path compressed_path (orig comp : tiff) :
  TiffFile fs original_path = Ok orig ->
  TiffFile fs compressed_path = Ok comp ->
  match imagej_metadata orig, imagej_metadata comp with
  | None, None => verify_metadata fs original_path compressed_path = Ok true
  | Some orig_meta, Some comp_meta =>
      exists r, verify_metadata fs original_path compressed_path = Ok r
      /\ (r = true <->
          forall field v, field ∈ ["frames"; "slices"; "channels"] ->
            orig_meta !! field = Some v ->
            exists v', comp_meta !! field = Some v' /\ meta_eqb v v' = true)
  | _, _ => verify_metadata fs original_path compressed_path = Ok false
  end.
Proof.
  intros Ho Hc. unfold verify_metadata. rewrite Ho, Hc. cbn [rbind].
  destruct (imagej_metadata orig) as [om|], (imagej_metadata comp) as [cm|];
    try reflexivity.
  eexists; split; [reflexivity |].
  rewrite forallb_forall. split.
  - intros F field v Hin Hv.
    specialize (F field).
    assert (In field (filter (fun f => is_Some (om !! f)) crucial_fields)) as I.
    { apply list_elem_of_In, list_elem_of_filter. split; [now rewrite Hv | exact Hin]. }
    specialize (F I). rewrite Hv in F. unfold get_eqb in F.
    destruct (cm !! field) as [v'|]; [eauto | discriminate].
  - intros F field I.
    apply list_elem_of_In, list_elem_of_filter in I as [[v Hv] Hin].
    destruct (F field v Hin Hv) as (v' & Hv' & E).
    now rewrite Hv, Hv'.
Qed.


(** The chunked reading hands the whole file to the hash object. *)
Lemma read_chunks_all (size fuel : nat) (pending fed : list byte) :
  (0 < size)%nat -> (length pending < fuel)%nat ->
  read_chunks size fuel pending fed = fed ++ pending.
Proof.
  intros Hs. revert pending fed.
  induction fuel as [|fuel IH]; intros pending fed L; [lia |].
  cbn [read_chunks].
  destruct (firstn size pending) as [|x chunk] eqn:E.
  - destruct pending as [|y l]; [now rewrite app_nil_r |].
    destruct size; [lia | discriminate].
  - rewrite IH.
    + rewrite <- E, <- app_assoc. now rewrite firstn_skipn.
    + rewrite length_skipn. simpl in L.
      assert (pending <> []) by (intros ->; now rewrite firstn_nil in E).
      destruct pending; [congruence | simpl in *; lia].
Qed.

Lemma get_file_hash_md5 fs file_path content :
  files fs !! file_path = Some content ->
  get_file_hash fs file_path = Ok (MD5.hexdigest content).
Proof.
  intros E. unfold get_file_hash, read_bytes. rewrite E. cbn [rbind].
  now rewrite read_chunks_all by lia.
Qed.

(** C6, as amended. [verify_file_hashes] on two existing files compares
    their MD5 digests: it returns false when the bytes are the same (in
    particular for one path given twice), and when it returns true the
    bytes differ.  Pixel content plays no part. *)
Theorem verify_file_hashes_md5 fs original_path compressed_path a b :
  files fs !! original_path = Some a ->
  files fs !! compressed_path = Some b ->
  verify_file_hashes fs original_path compressed_path
  = Ok (negb (String.eqb (MD5.hexdigest a) (MD5.hexdigest b)))
  /\ (a = b ->
      verify_file_hashes fs original_path compressed_path = Ok false)
  /\ (verify_file_hashes fs original_path compressed_path = Ok true ->
      a <> b).
Proof.
  intros Ha Hb.
  assert (verify_file_hashes fs original_path compressed_path
          = Ok (negb (String.eqb (MD5.hexdigest a) (MD5.hexdigest b)))) as E.
  { unfold verify_file_hashes.
    now rewrite (get_file_hash_md5 _ _ _ Ha), (get_file_hash_md5 _ _ _ Hb). }
  rewrite E. split; [reflexivity | split].
  - intros ->. now rewrite String.eqb_refl.
  - intros T ->. rewrite String.eqb_refl in T. discriminate.
Qed.

(** [verify_statistics] on two arrays that were read and hold items. *)
Lemma verify_statistics_run fs original_path compressed_path
    (original compressed : ndarray) :
  imread fs original_path = Ok original ->
  imread fs compressed_path = Ok compressed ->
  data original <> [] -> data compressed <> [] ->
  verify_statistics fs original_path compressed_path
  = Ok (scalar_eqb (np_min original) (np_min compressed)
        && (scalar_eqb (np_max original) (np_max compressed)
            && (scalar_eqb (np_mean original) (np_mean compressed)
                && (scalar_eqb (np_std original) (np_std compressed)
                    && true)))).
Proof.
  intros Ho Hc No Nc. unfold verify_statistics. rewrite Ho, Hc.
  cbn [rbind].
  destruct (data original) as [|x l]; [congruence |].
  destruct (data compressed) as [|y m]; [congruence |].
  reflexivity.
Qed.


(** Only [verify_pixel_values] wraps the error of a failed read. *)
Lemma verify_pixel_values_read_error fs original_path compressed_path e :
  imread fs original_path = Raise e ->
  verify_pixel_values fs original_path compressed_path
  = Raise (Exn Exception ("Pixel comparison failed: " +:+ exn_str e)).
Proof. intros E. unfold verify_pixel_values. now rewrite E. Qed.

Lemma verify_statistics_read_error fs original_path compressed_path e :
  imread fs original_path = Raise e ->
  verify_statistics fs original_path compressed_path = Raise e.
Proof. intros E. unfold verify_statistics. now rewrite E. Qed.

Lemma verify_dimensions_open_error fs original_path compressed_path e :
  TiffFile fs original_path = Raise e ->
  verify_dimensions fs original_path compressed_path = Raise e.
Proof. intros E. unfold verify_dimensions. now rewrite E. Qed.

Lemma verify_metadata_open_error fs original_path compressed_path e :
  TiffFile fs original_path = Raise e ->
  verify_metadata fs original_path compressed_path = Raise e.
Proof. intros E. unfold verify_metadata. now rewrite E. Qed.

Lemma verify_file_hashes_missing fs original_path compressed_path :
  files fs !! original_path = None ->
  verify_file_hashes fs original_path compressed_path
  = Raise (no_such_file original_path).
Proof.
  intros E. unfold verify_file_hashes, get_file_hash, read_bytes.
  now rewrite E.
Qed.

End VerifierProperties.

(** ** The compressor and the file manager *)

Section FlowProperties.
Context `{Libraries}.

Lemma compress_with_tifffile_frame self output_path method w v :
  same_disk w v ->
  fst (compress_with_tifffile self output_path method w)
  = fst (compress_with_tifffile self output_path method v)
  /\ same_disk (snd (compress_with_tifffile self output_path method w))
               (snd (compress_with_tifffile self output_path method v)).
Proof.
  intros (E1 & E2 & E3). unfold same_disk.
  unfold compress_with_tifffile, _get_compression_stats. run_monad.
  rewrite <- E1.
  repeat (case_inner; cbn [fst snd fsys results_text compression_var]); auto.
Qed.

Lemma TiffCompressor_init_run input_path w :
  TiffCompressor_init input_path w =
  match files (fsys w) !! input_path with
  | Some b => (Ok (MkTiffCompressor input_path (Z.of_nat (length b))), w)
  | None => (Raise (no_such_file input_path), w)
  end.
Proof.
  unfold TiffCompressor_init, getsize, read_bytes. run_monad.
  now destruct (files (fsys w) !! input_path).
Qed.

Lemma compress_file_frame file method w v :
  same_disk w v ->
  fst (compress_file file method w) = fst (compress_file file method v)
  /\ same_disk (snd (compress_file file method w))
               (snd (compress_file file method v)).
Proof.
  intros S. unfold compress_file, mbind, mret.
  rewrite !TiffCompressor_init_run.
  destruct S as (E1 & E2 & E3). rewrite <- E1.
  destruct (files (fsys w) !! file) as [b|]; [| now repeat split].
  destruct (compress_with_tifffile_frame
              (MkTiffCompressor file (Z.of_nat (length b)))
              (compressed_name file method) method w v) as [F G];
    [now repeat split |].
  destruct (compress_with_tifffile _ _ _ w) as [r1 w1],
           (compress_with_tifffile _ _ _ v) as [r2 v1].
  cbn [fst snd] in *. subst r2. destruct r1; cbn; auto.
Qed.

(** What [compress_with_tifffile] leaves behind: at most one file is
    written, at the output path, and it is there when the call returns. *)
Lemma compress_with_tifffile_effect self output_path method w r w' :
  compress_with_tifffile self output_path method w = (r, w') ->
  results_text w' = results_text w
  /\ compression_var w' = compression_var w
  /\ locked (fsys w') = locked (fsys w)
  /\ (forall p, p <> output_path ->
                files (fsys w') !! p = files (fsys w) !! p)
  /\ (forall stats, r = Ok stats ->
        is_Some (files (fsys w') !! output_path)
        /\ exists compression, tifffile_method method = Ok compression).
Proof.
  unfold compress_with_tifffile, _get_compression_stats, getsize, read_bytes.
  run_monad. unfold write_bytes.
  repeat (case_inner; cbn [fst snd fsys results_text compression_var files locked]);
    intros [= <- <-];
    cbn [fsys results_text compression_var files locked];
    (split; [| split; [| split; [| split]]]);
    solve [ auto
          | intros; discriminate
          | intros p Hp; now rewrite lookup_insert_ne by congruence
          | intros stats _; split; [rewrite ?lookup_insert_eq |]; eauto ].
Qed.

Lemma compress_file_effect file method w r w' :
  compress_file file method w = (r, w') ->
  results_text w' = results_text w
  /\ compression_var w' = compression_var w
  /\ locked (fsys w') = locked (fsys w)
  /\ (forall p, p <> compressed_name file method ->
                files (fsys w') !! p = files (fsys w) !! p)
  /\ (forall out, r = Ok out ->
        out = compressed_name file method
        /\ is_Some (files (fsys w') !! out)
        /\ is_Some (files (fsys w) !! file)
        /\ exists compression, tifffile_method method = Ok compression).
Proof.
  unfold compress_file, mbind, mret. rewrite TiffCompressor_init_run.
  destruct (files (fsys w) !! file) as [b|] eqn:Eb.
  - destruct (compress_with_tifffile _ _ _ w) as [r1 w1] eqn:E1.
    destruct (compress_with_tifffile_effect _ _ _ _ _ _ E1)
      as (A & B & C & D & F).
    destruct r1 as [stats|e]; intros [= <- <-];
      (split; [| split; [| split; [| split]]]); auto; try discriminate.
    intros out [= <-]. split; [reflexivity |].
    destruct (F stats eq_refl) as [G1 G2]. repeat split; eauto.
  - intros [= <- <-].
    (split; [| split; [| split; [| split]]]); auto; discriminate.
Qed.

(** The lines [check_compression] prints for the failed checks change
    nothing but the output. *)
Lemma print_failed_run (results : list (string * bool)) w :
  exists w',
    fold_right
      (fun tp k => if snd tp : bool then k
                   else (print ("- Failed: " +:+ fst tp) ;;; k)%M)
      (mret false) results w = (Ok false, w')
    /\ fsys w' = fsys w /\ results_text w' = results_text w
    /\ compression_var w' = compression_var w.
Proof.
  revert w; induction results as [|[name b] results IH]; intros w.
  - exists w. now cbn.
  - cbn [fold_right snd fst]. destruct b; [apply IH |].
    unfold mbind at 1. unfold print at 1.
    destruct (IH (World (fsys w) (stdout w ++ ["- Failed: " +:+ name])
                    (path_var w) (compression_var w) (progress_var w)
                    (progress_bar w) (results_text w) (dialogs w)))
      as (w' & E & A & B & C).
    exists w'. now rewrite E.
Qed.

(** [check_compression] reads the disk, prints, and returns whether all
    five checks hold. *)
Lemma check_compression_run original compressed w :
  exists w',
    check_compression original compressed w
    = ((results <- verify_all (fsys w) original compressed ;;
        Ok (forallb snd results))%result, w')
    /\ fsys w' = fsys w /\ results_text w' = results_text w
    /\ compression_var w' = compression_var w.
Proof.
  unfold check_compression. unfold mbind at 1, reading at 1.
  destruct (verify_all (fsys w) original compressed) as [results|e];
    cbn [rbind]; [| now exists w].
  destruct (forallb snd results) eqn:A.
  - run_monad. eexists; split; [reflexivity |]. now cbn.
  - unfold mbind at 1, print at 1.
    destruct (print_failed_run results
                (World (fsys w) (stdout w ++ ["Issues detected:"])
                   (path_var w) (compression_var w) (progress_var w)
                   (progress_bar w) (results_text w) (dialogs w)))
      as (w' & E & B & C & D).
    exists w'. now rewrite E.
Qed.




Lemma verify_file_hashes_same fs original compressed content :
  files fs !! original = Some content ->
  files fs !! compressed = Some content ->
  verify_file_hashes fs original compressed = Ok false.
Proof.
  intros Ho Hc. unfold verify_file_hashes.
  rewrite (get_file_hash_md5 _ _ _ Ho), (get_file_hash_md5 _ _ _ Hc).
  cbn [rbind]. now rewrite String.eqb_refl.
Qed.

Lemma all_equal_same (a : list elem) :
  Forall (fun x => elem_eqb x x = true) a -> all_equal a a = true.
Proof.
  induction 1 as [|x a R _ IH]; [reflexivity |].
  cbn [all_equal]. now rewrite R, IH.
Qed.

(** C9, as amended. For two existing files with the same bytes (one path
    given twice included) the hash check returns false and
    [check_compression] never returns success: it returns failure or
    raises.  When the file decodes to an image that holds items and has a
    series, and [==] holds of each of its pixels, crucial metadata values
    and statistics with itself (none is a NaN), the four content checks
    return true and [check_compression] returns failure. *)
Theorem identical_files_fail original compressed content w :
  files (fsys w) !! original = Some content ->
  files (fsys w) !! compressed = Some content ->
  verify_file_hashes (fsys w) original compressed = Ok false
  /\ fst (check_compression original compressed w) <> Ok true
  /\ (forall t a,
        tiff_open content = Ok t -> asarray t = Ok a ->
        data a <> [] -> series t <> [] ->
        Forall (fun x => elem_eqb x x = true) (data a) ->
        (forall m field v,
           imagej_metadata t = Some m -> field ∈ crucial_fields ->
           m !! field = Some v -> meta_eqb v v = true) ->
        scalar_eqb (np_min a) (np_min a) = true ->
        scalar_eqb (np_max a) (np_max a) = true ->
        scalar_eqb (np_mean a) (np_mean a) = true ->
        scalar_eqb (np_std a) (np_std a) = true ->
        verify_pixel_values (fsys w) original compressed = Ok true
        /\ verify_dimensions (fsys w) original compressed = Ok true
        /\ verify_metadata (fsys w) original compressed = Ok true
        /\ verify_statistics (fsys w) original compressed = Ok true
        /\ fst (check_compression original compressed w) = Ok false).
Proof.
  intros Ho Hc.
  pose proof (verify_file_hashes_same _ _ _ _ Ho Hc) as Hh.
  destruct (check_compression_run original compressed w)
    as (w' & E & _). rewrite E. cbn [fst].
  split; [exact Hh | split].
  - unfold verify_all. rewrite Hh.
    destruct (verify_pixel_values _ _ _); cbn [rbind]; [| discriminate].
    destruct (verify_dimensions _ _ _); cbn [rbind]; [| discriminate].
    destruct (verify_metadata _ _ _); cbn [rbind]; [| discriminate].
    destruct (verify_statistics _ _ _); cbn [rbind]; [| discriminate].
    cbn [forallb snd andb]. rewrite andb_false_r. discriminate.
  - intros t a Ht Ha Na Ns Re Rm Rmin Rmax Rmean Rstd.
    assert (TiffFile (fsys w) original = Ok t) as To
      by (unfold TiffFile, read_bytes; now rewrite Ho).
    assert (TiffFile (fsys w) compressed = Ok t) as Tc
      by (unfold TiffFile, read_bytes; now rewrite Hc).
    assert (imread (fsys w) original = Ok a) as Io
      by (unfold imread; now rewrite To).
    assert (imread (fsys w) compressed = Ok a) as Ic
      by (unfold imread; now rewrite Tc).
    assert (verify_pixel_values (fsys w) original compressed = Ok true) as P.
    { unfold verify_pixel_values. rewrite Io, Ic. cbn [rbind].
      rewrite bool_decide_eq_false_2 by tauto. cbn [rcatch].
      unfold array_equal. rewrite bool_decide_eq_true_2 by reflexivity.
      now rewrite all_equal_same. }
    assert (verify_dimensions (fsys w) original compressed = Ok true) as D.
    { unfold verify_dimensions, series0_shape. rewrite To, Tc. cbn [rbind].
      destruct (series t); [congruence |]. cbn [rbind].
      now rewrite bool_decide_eq_true_2. }
    assert (verify_metadata (fsys w) original compressed = Ok true) as M.
    { unfold verify_metadata. rewrite To, Tc. cbn [rbind].
      destruct (imagej_metadata t) as [m|] eqn:Em; [| reflexivity].
      f_equal. apply forallb_forall. intros field I.
      apply list_elem_of_In, list_elem_of_filter in I as [_ I].
      unfold get_eqb. destruct (m !! field) eqn:Ev; eauto. }
    assert (verify_statistics (fsys w) original compressed = Ok true) as S.
    { rewrite (verify_statistics_run _ _ _ _ _ Io Ic Na Na).
      now rewrite Rmin, Rmax, Rmean, Rstd. }
    repeat (split; [assumption |]).
    unfold verify_all. rewrite P, Hh, D, M, S. reflexivity.
Qed.

(** What [manage_files] does when the removal goes through. *)
Lemma manage_files_removed original_path compressed_path ok w fs' :
  os_remove (fsys w) (if ok : bool then original_path else compressed_path)
  = Ok fs' ->
  exists w',
    manage_files original_path compressed_path ok w
    = (Ok (if ok then compressed_path else original_path), w')
    /\ fsys w' = fs'
    /\ results_text w' =
       results_text w
       ++ [(if ok then "Original file deleted: " +:+ path.basename original_path
            else "Compressed file deleted: " +:+ path.basename compressed_path)
           +:+ newline].
Proof.
  intros E. unfold manage_files, remove, add_result. run_monad.
  destruct ok; rewrite E; cbn; eexists; (split; [reflexivity |]);
    cbn; split; try reflexivity; now rewrite append_assoc.
Qed.

(** What [manage_files] does when the removal raises. *)
Lemma manage_files_refused original_path compressed_path ok w e :
  os_remove (fsys w) (if ok : bool then original_path else compressed_path)
  = Raise e ->
  exists w',
    manage_files original_path compressed_path ok w = (Ok original_path, w')
    /\ fsys w' = fsys w
    /\ results_text w' =
       results_text w ++ ["Error managing files: " +:+ exn_str e +:+ newline].
Proof.
  intros E. unfold manage_files, remove, add_result. run_monad.
  destruct ok; rewrite E; cbn; eexists; (split; [reflexivity |]); now cbn.
Qed.

(** C10. [manage_files] always returns, never raises; and when the
    removal it attempts raises, whatever [compression_successful] is, it
    leaves the disk as it was, logs the error and returns the original
    path. *)
Theorem manage_files_catches original_path compressed_path
    (compression_successful : bool) w :
  exists kept w',
    manage_files original_path compressed_path compression_successful w
    = (Ok kept, w')
    /\ forall e,
         os_remove (fsys w)
           (if compression_successful then original_path else compressed_path)
         = Raise e ->
         kept = original_path
         /\ fsys w' = fsys w
         /\ results_text w' =
            results_text w
            ++ ["Error managing files: " +:+ exn_str e +:+ newline].
Proof.
  destruct (os_remove (fsys w)
              (if compression_successful then original_path else compressed_path))
    as [fs'|e] eqn:E.
  - destruct (manage_files_removed _ _ _ _ _ E) as (w' & R & _).
    exists (if compression_successful then compressed_path else original_path), w'.
    split; [exact R | discriminate].
  - destruct (manage_files_refused _ _ _ _ _ E) as (w' & R & F & L).
    exists original_path, w'. split; [exact R |].
    now intros e' [= <-].
Qed.


Lemma tifffile_method_keys method compression :
  tifffile_method method = Ok compression ->
  method = "lzw" \/ method = "zip" \/ method = "packbits".
Proof.
  unfold tifffile_method, COMPRESSION_METHODS. cbn [List.find fst].
  destruct (String.eqb "lzw" method) eqn:E1;
    [apply String.eqb_eq in E1; auto |].
  destruct (String.eqb "zip" method) eqn:E2;
    [apply String.eqb_eq in E2; auto |].
  destruct (String.eqb "packbits" method) eqn:E3;
    [apply String.eqb_eq in E3; auto |].
  discriminate.
Qed.

Lemma method_no_sep method compression :
  tifffile_method method = Ok compression ->
  path.rfind path.sep method = -1.
Proof.
  intros E. destruct (tifffile_method_keys _ _ E) as [-> | [-> | ->]];
    reflexivity.
Qed.

(** The base name of the output of [compress_file]. *)
Lemma compressed_name_basename file compression_type :
  path.rfind path.sep compression_type = -1 ->
  path.basename (compressed_name file compression_type)
  = fst (path.splitext (path.basename file))
    +:+ "_compressed_" +:+ compression_type +:+ ".tif".
Proof.
  intros Hm. unfold compressed_name.
  set (stem := fst (path.splitext (path.basename file))).
  assert (path.rfind path.sep stem = -1) as Hs
    by (apply splitext_no_sep, rfind_basename).
  destruct (join_no_sep
              (path.abspath getcwd (path.join file path.pardir)) stem Hs)
    as (pre & -> & Hpre).
  rewrite append_assoc. apply basename_app; [exact Hpre |].
  rewrite !rfind_app, Hm. cbn. exact Hs.
Qed.

(** The output of [compress_file] is never its input. *)
Lemma compressed_name_ne file compression_type :
  path.rfind path.sep compression_type = -1 ->
  compressed_name file compression_type <> file.
Proof.
  intros Hm E. apply (f_equal path.basename) in E.
  rewrite (compressed_name_basename _ _ Hm) in E.
  rewrite <- (splitext_app (path.basename file)) in E at 2.
  apply append_inv_head in E.
  destruct (splitext_ext (path.basename file)) as [E' | [r E']];
    rewrite E' in E; discriminate.
Qed.


Lemma mbind_ok {A B} (m : M A) (k : A -> M B) w a w' :
  m w = (Ok a, w') -> mbind m k w = k a w'.
Proof. intros E. unfold mbind. now rewrite E. Qed.

Lemma mbind_raise {A B} (m : M A) (k : A -> M B) w e w' :
  m w = (Raise e, w') -> mbind m k w = (Raise e, w').
Proof. intros E. unfold mbind. now rewrite E. Qed.

Lemma os_remove_existing fs p :
  is_Some (files fs !! p) ->
  os_remove fs p =
  if decide (p ∈ locked fs)
  then Raise (Exn PermissionError
                ("[Errno 13] Permission denied: " +:+ quoted p))
  else Ok (Filesystem (delete p (files fs)) (locked fs)).
Proof. intros [b E]. unfold os_remove. now rewrite E. Qed.

(** C2, as amended. In a run of the single-file flow in which the
    compression returns and the verification returns [success]: when the
    verification succeeded and the original can be removed, the original
    is deleted, the compressed file stays and is reported as kept; when it
    failed and the compressed file can be removed, the compressed file is
    deleted, the original stays and is reported as kept; and when the
    removal is refused, both files stay and the original is reported as
    kept. *)
Theorem single_file_policy file w out w1 success w2 :
  compress_file file (compression_var w) w = (Ok out, w1) ->
  check_compression file out w1 = (Ok success, w2) ->
  exists w3 kept line,
    compress_single_file file w = (Ok tt, w3)
    /\ results_text w3 =
       results_text w
       ++ [ "File: " +:+ path.basename file +:+ newline;
            "Compressed to: " +:+ path.basename out +:+ newline;
            "Verification: "
              +:+ (if success then "Success" else "Failed") +:+ newline;
            line;
            "Kept file: " +:+ path.basename kept +:+ newline;
            dashes 50 +:+ newline ]
    /\ is_Some (files (fsys w1) !! file)
    /\ is_Some (files (fsys w1) !! out)
    /\ (let target := if success then file else out in
        let other := if success then out else file in
        (target ∉ locked (fsys w) ->
           kept = other
           /\ files (fsys w3) = delete target (files (fsys w1))
           /\ files (fsys w3) !! target = None
           /\ is_Some (files (fsys w3) !! other))
        /\ (target ∈ locked (fsys w) ->
              kept = file /\ fsys w3 = fsys w1)).
Proof.
  intros Hc Hv.
  destruct (compress_file_effect _ _ _ _ _ Hc) as (R1 & V1 & L1 & F1 & O1).
  destruct (O1 out eq_refl) as (Eout & Sout & Sfile & codec & Hm).
  assert (out <> file) as Ne
    by (rewrite Eout; apply compressed_name_ne; eapply method_no_sep, Hm).
  assert (is_Some (files (fsys w1) !! file)) as Sfile1
    by (rewrite F1 by congruence; exact Sfile).
  (* the same run with the progress bar moved *)
  set (wa := snd (set_progress_bar (inject_Z 33) w)).
  destruct (compress_file_frame file (compression_var w) w wa) as [Fr Sd];
    [now repeat split |].
  rewrite Hc in Fr, Sd. cbn [fst snd] in Fr, Sd.
  destruct (compress_file file (compression_var w) wa) as [r1 w1a] eqn:Ca.
  cbn [fst snd] in Fr, Sd. subst r1. destruct Sd as (D1 & D2 & D3).
  set (wb := snd (set_progress_bar (inject_Z 66) w1a)).
  destruct (check_compression_run file out w1) as (w2' & Ev & _).
  rewrite Hv in Ev. injection Ev as Ev _.
  destruct (check_compression_run file out wb) as (w2b & Eb & B1 & B2 & B3).
  change (fsys wb) with (fsys w1a) in Eb, B1.
  change (results_text wb) with (results_text w1a) in B2.
  rewrite <- D1, <- Ev in Eb.
  set (target := if success then file else out).
  set (other := if success then out else file).
  set (l1 := "File: " +:+ path.basename file +:+ newline).
  set (l2 := "Compressed to: " +:+ path.basename out +:+ newline).
  set (l3 := "Verification: "
             +:+ (if success then "Success" else "Failed") +:+ newline).
  set (wc := snd (add_result l3 (snd (add_result l2 (snd (add_result l1 w2b)))))).
  assert (fsys wc = fsys w1) as Fc by (cbn; now rewrite B1, <- D1).
  assert (is_Some (files (fsys wc) !! target)) as St.
  { rewrite Fc. unfold target. now destruct success. }
  assert (locked (fsys wc) = locked (fsys w)) as Lc by now rewrite Fc.
  assert (results_text wc = results_text w ++ [l1; l2; l3]) as Rc.
  { cbn. rewrite B2, <- D2, R1, <- !app_assoc. reflexivity. }
  assert (forall kept line wd,
            manage_files file out success wc = (Ok kept, wd) ->
            results_text wd = results_text wc ++ [line] ->
            exists w3,
              compress_single_file file w = (Ok tt, w3)
              /\ fsys w3 = fsys wd
              /\ results_text w3 =
                 results_text w
                 ++ [l1; l2; l3; line;
                     "Kept file: " +:+ path.basename kept +:+ newline;
                     dashes 50 +:+ newline]) as Finish.
  { intros kept line wd Em Rd. unfold compress_single_file.
    rewrite (mbind_ok (set_progress_bar (inject_Z 33)) _ w tt wa eq_refl).
    rewrite (mbind_ok (fun w => (Ok (compression_var w), w)) _ wa
               (compression_var w) wa eq_refl).
    rewrite (mbind_ok (compress_file file (compression_var w)) _ wa out w1a Ca).
    rewrite (mbind_ok (set_progress_bar (inject_Z 66)) _ w1a tt wb eq_refl).
    rewrite (mbind_ok (check_compression file out) _ wb success w2b Eb).
    fold l1 l2 l3.
    rewrite (mbind_ok (add_result l1) _ w2b tt _ eq_refl).
    rewrite (mbind_ok (add_result l2) _ _ tt _ eq_refl).
    rewrite (mbind_ok (add_result l3) _ _ tt _ eq_refl).
    fold wc.
    rewrite (mbind_ok (manage_files file out success) _ wc kept wd Em).
    rewrite (mbind_ok (add_result _) _ wd tt _ eq_refl).
    eexists; split; [reflexivity |].
    split; [reflexivity |].
    cbn [add_result set_results_text results_text snd fst].
    rewrite Rd, Rc, <- !app_assoc. reflexivity. }
  pose proof (os_remove_existing _ _ St) as Er.
  destruct (decide (target ∈ locked (fsys wc))) as [Lk | Lk].
  - destruct (manage_files_refused file out success wc _ Er)
      as (wd & Em & Fd & Rd).
    destruct (Finish _ _ _ Em Rd) as (w3 & E3 & F3 & R3).
    exists w3, file, ("Error managing files: "
                      +:+ ("[Errno 13] Permission denied: " +:+ quoted target)
                      +:+ newline).
    split; [exact E3 |]. split; [exact R3 |].
    split; [exact Sfile1 |]. split; [exact Sout |].
    cbv zeta. fold target other. rewrite Lc in Lk. split; [tauto |].
    intros _. split; [reflexivity |]. now rewrite F3, Fd.
  - destruct (manage_files_removed file out success wc _ Er)
      as (wd & Em & Fd & Rd).
    destruct (Finish _ _ _ Em Rd) as (w3 & E3 & F3 & R3).
    fold other in Em.
    exists w3, other, ((if success
                        then "Original file deleted: " +:+ path.basename file
                        else "Compressed file deleted: " +:+ path.basename out)
                       +:+ newline).
    split; [exact E3 |]. split; [exact R3 |].
    split; [exact Sfile1 |]. split; [exact Sout |].
    cbv zeta. fold target other. rewrite Lc in Lk. split; [| tauto].
    intros _. rewrite F3, Fd. cbn [files]. rewrite Fc.
    split; [reflexivity |]. split; [reflexivity |].
    split; [apply lookup_delete_eq |].
    rewrite lookup_delete_ne
      by (unfold target, other; destruct success; congruence).
    unfold other. now destruct success.
Qed.


Lemma batch_compress_one_effect output_dir method results tiff_file w :
  exists results' w',
    batch_compress_one output_dir method results tiff_file w
    = (Ok results', w')
    /\ forall p,
         p <> path.join output_dir
                ("compressed_" +:+ path.basename tiff_file) ->
         files (fsys w') !! p = files (fsys w) !! p.
Proof.
  unfold batch_compress_one, mcatch, mbind, mret.
  rewrite TiffCompressor_init_run.
  destruct (files (fsys w) !! tiff_file) as [b|].
  - destruct (compress_with_tifffile _ _ _ w) as [r1 w1] eqn:E1.
    destruct (compress_with_tifffile_effect _ _ _ _ _ _ E1)
      as (_ & _ & _ & D & _).
    destruct r1 as [stats|e]; cbn; eauto.
  - cbn. eauto.
Qed.

Lemma batch_loop_effect output_dir method todo :
  forall results w r w' p,
    batch_loop output_dir method todo results w = (r, w') ->
    files (fsys w') !! p <> files (fsys w) !! p ->
    exists tiff_file,
      In tiff_file todo
      /\ p = path.join output_dir
               ("compressed_" +:+ path.basename tiff_file).
Proof.
  induction todo as [|f todo IH]; intros results w r w' p E Hp.
  - cbn in E. injection E as _ <-. congruence.
  - cbn [batch_loop] in E.
    destruct (batch_compress_one_effect output_dir method results f w)
      as (results' & w1 & E1 & D1).
    rewrite (mbind_ok _ _ _ _ _ E1) in E.
    destruct (decide (p = path.join output_dir
                            ("compressed_" +:+ path.basename f)))
      as [-> | Np].
    + exists f. split; [now left | reflexivity].
    + rewrite <- (D1 p Np) in Hp.
      destruct (IH _ _ _ _ _ E Hp) as (g & Hg & Eg).
      exists g. split; [now right | exact Eg].
Qed.

(** C4, as amended. A file written by [compress_file] is named
    [<name>_compressed_<method>.tif] in the folder of the input, where
    [<name>] is the input's base name without extension; a file written by
    [batch_compress_directory] is named [compressed_<input file name>] in
    the output directory. *)
Theorem output_names w p :
  (forall file compression_type,
     written_by (compress_file file compression_type) w p ->
     p = compressed_name file compression_type
     /\ path.basename p =
        fst (path.splitext (path.basename file))
        +:+ "_compressed_" +:+ compression_type +:+ ".tif")
  /\ (forall input_dir output_dir method,
        written_by (batch_compress_directory input_dir output_dir method) w p ->
        exists tiff_file,
          In tiff_file (glob_tif (fsys w) input_dir)
          /\ p = path.join output_dir
                   ("compressed_" +:+ path.basename tiff_file)).
Proof.
  split.
  - intros file ct Hw. unfold written_by in Hw.
    assert (p = compressed_name file ct
            /\ exists c, tifffile_method ct = Ok c) as [-> [c Hc]].
    { revert Hw. unfold compress_file, mbind, mret.
      rewrite TiffCompressor_init_run.
      destruct (files (fsys w) !! file) as [b|]; [| cbn; congruence].
      destruct (compress_with_tifffile _ _ _ w) as [r1 w1] eqn:E1.
      assert (snd (match r1 with
                   | Ok _ => (Ok (compressed_name file ct), w1)
                   | Raise e => (Raise e, w1)
                   end) = w1) as -> by now destruct r1.
      intros Hw.
      destruct (compress_with_tifffile_effect _ _ _ _ _ _ E1)
        as (_ & _ & _ & D & _).
      destruct (decide (p = compressed_name file ct)) as [-> | Np];
        [| now rewrite (D p Np) in Hw].
      split; [reflexivity |].
      revert E1 Hw.
      unfold compress_with_tifffile, mcatch, mbind, pure, reading, mraise.
      cbn [input_path].
      destruct (TiffFile (fsys w) file) as [tif|]; [| intros [= _ <-]; congruence].
      destruct (asarray tif) as [d|]; [| intros [= _ <-]; congruence].
      destruct (tifffile_method ct) as [c|]; [| intros [= _ <-]; congruence].
      eauto. }
    split; [reflexivity |].
    apply compressed_name_basename. eapply method_no_sep, Hc.
  - intros input_dir output_dir method Hw. unfold written_by in Hw.
    revert Hw. unfold batch_compress_directory, mkdir_exist_ok.
    unfold mbind at 1 2, reading at 1, mret at 1, mraise at 1.
    destruct (isfile (fsys w) output_dir); [cbn; congruence |].
    unfold mbind at 1, reading at 1.
    destruct (batch_loop output_dir method (glob_tif (fsys w) input_dir) [] w)
      as [r w'] eqn:E.
    cbn [snd]. intros Hw. eapply batch_loop_effect; eauto.
Qed.

End FlowProperties.

Section FolderProperties.
Context `{Libraries}.

(** An error raised for one file ends the loop of [compress_folder]:
    whatever files are left are not processed. *)
Lemma folder_loop_stops total_files i file_path rest w e w' :
  compress_single_file file_path
    (snd (set_progress_var
            ("Processing file " +:+ pretty i +:+ " of " +:+ pretty total_files)
            (snd (set_progress_bar
                    (inject_Z (Z.of_nat i) / inject_Z (Z.of_nat total_files)
                     * inject_Z 100)%Q w))))
  = (Raise e, w') ->
  folder_loop total_files i (file_path :: rest) w = (Raise e, w').
Proof.
  intros E. cbn [folder_loop].
  rewrite (mbind_ok (set_progress_bar _) _ w tt _ eq_refl).
  rewrite (mbind_ok (set_progress_var _) _ _ tt _ eq_refl).
  now rewrite (mbind_raise (compress_single_file file_path) _ _ _ _ E).
Qed.

(** Without an error the files are processed one after the other. *)
Lemma folder_loop_next total_files i file_path rest w w' :
  compress_single_file file_path
    (snd (set_progress_var
            ("Processing file " +:+ pretty i +:+ " of " +:+ pretty total_files)
            (snd (set_progress_bar
                    (inject_Z (Z.of_nat i) / inject_Z (Z.of_nat total_files)
                     * inject_Z 100)%Q w))))
  = (Ok tt, w') ->
  folder_loop total_files i (file_path :: rest) w
  = folder_loop total_files (S i) rest w'.
Proof.
  intros E. cbn [folder_loop].
  rewrite (mbind_ok (set_progress_bar _) _ w tt _ eq_refl).
  rewrite (mbind_ok (set_progress_var _) _ _ tt _ eq_refl).
  now rewrite (mbind_ok (compress_single_file file_path) _ _ _ _ E).
Qed.

(** [batch_compress_directory] never raises once the output directory is
    accepted: the error of a file is printed and the loop goes on. *)
Lemma batch_loop_returns output_dir method todo :
  forall results w, exists results' w',
    batch_loop output_dir method todo results w = (Ok results', w').
Proof.
  induction todo as [|f todo IH]; intros results w; [cbn; eauto |].
  cbn [batch_loop].
  destruct (batch_compress_one_effect output_dir method results f w)
    as (results1 & w1 & E1 & _).
  rewrite (mbind_ok _ _ _ _ _ E1). apply IH.
Qed.

End FolderProperties.

(** ** Integer images *)

Section IntegerImages.

Lemma fold_min_lower (x : Z) (l : list Z) :
  fold_right Z.min x l <= x /\ Forall (fun y => fold_right Z.min x l <= y) l.
Proof.
  induction l as [|y l [A B]]; cbn; [split; [lia | constructor] |].
  split; [lia |]. constructor; [lia |].
  eapply Forall_impl; [exact B |]. cbn. intros; lia.
Qed.

Lemma fold_min_elem (x : Z) (l : list Z) : In (fold_right Z.min x l) (x :: l).
Proof.
  induction l as [|y l IH]; cbn; [auto |].
  destruct (Z.min_spec y (fold_right Z.min x l)) as [[_ ->] | [_ ->]]; auto.
  destruct IH; auto.
Qed.

Lemma fold_max_upper (x : Z) (l : list Z) :
  x <= fold_right Z.max x l /\ Forall (fun y => y <= fold_right Z.max x l) l.
Proof.
  induction l as [|y l [A B]]; cbn; [split; [lia | constructor] |].
  split; [lia |]. constructor; [lia |].
  eapply Forall_impl; [exact B |]. cbn. intros; lia.
Qed.

Lemma fold_max_elem (x : Z) (l : list Z) : In (fold_right Z.max x l) (x :: l).
Proof.
  induction l as [|y l IH]; cbn; [auto |].
  destruct (Z.max_spec y (fold_right Z.max x l)) as [[_ ->] | [_ ->]]; auto.
  destruct IH; auto.
Qed.

(** The minimum and the maximum do not depend on the order of the items. *)
Lemma min_permutation (l l' : list Z) :
  Permutation l l' ->
  fold_right Z.min (hd 0 l) l = fold_right Z.min (hd 0 l') l'.
Proof.
  intros P.
  destruct l as [|x l]; [apply Permutation_nil in P; now subst |].
  destruct l' as [|x' l'];
    [apply Permutation_sym, Permutation_nil in P; discriminate |].
  cbn [hd].
  assert (forall h t, In (fold_right Z.min h (h :: t)) (h :: t)) as E.
  { intros h t.
    destruct (fold_min_elem h (h :: t)) as [E1 | I]; [left; exact E1 | exact I]. }
  assert (forall h t y, In y (h :: t) -> fold_right Z.min h (h :: t) <= y) as L.
  { intros h t y I. destruct (fold_min_lower h (h :: t)) as [_ F].
    rewrite Forall_forall in F. apply F.
    now apply list_elem_of_In. }
  apply Z.le_antisymm.
  - apply L. eapply Permutation_in; [apply Permutation_sym, P | apply E].
  - apply L. eapply Permutation_in; [apply P | apply E].
Qed.

Lemma max_permutation (l l' : list Z) :
  Permutation l l' ->
  fold_right Z.max (hd 0 l) l = fold_right Z.max (hd 0 l') l'.
Proof.
  intros P.
  destruct l as [|x l]; [apply Permutation_nil in P; now subst |].
  destruct l' as [|x' l'];
    [apply Permutation_sym, Permutation_nil in P; discriminate |].
  cbn [hd].
  assert (forall h t, In (fold_right Z.max h (h :: t)) (h :: t)) as E.
  { intros h t.
    destruct (fold_max_elem h (h :: t)) as [E1 | I]; [left; exact E1 | exact I]. }
  assert (forall h t y, In y (h :: t) -> y <= fold_right Z.max h (h :: t)) as L.
  { intros h t y I. destruct (fold_max_upper h (h :: t)) as [_ F].
    rewrite Forall_forall in F. apply F.
    now apply list_elem_of_In. }
  apply Z.le_antisymm.
  - apply L. eapply Permutation_in; [apply P | apply E].
  - apply L. eapply Permutation_in; [apply Permutation_sym, P | apply E].
Qed.

End IntegerImages.

(** ** The statistics of numpy on integer images *)

(** The recursion of [pairwise_sum] ends before the fuel does. *)
Lemma pairwise_sum_fuel (fuel fuel' : nat) (l : list Float64.float) :
  (length l <= fuel)%nat -> (length l <= fuel')%nat ->
  Float64.pairwise_sum fuel l = Float64.pairwise_sum fuel' l.
Proof.
  revert fuel' l. induction fuel as [|fuel IH]; intros fuel' l H1 H2.
  - destruct l; [| cbn in H1; lia]. now destruct fuel'.
  - destruct fuel' as [|fuel'].
    + destruct l; [| cbn in H2; lia]. reflexivity.
    + cbn [Float64.pairwise_sum].
      destruct (length l <? 8)%nat eqn:E8; [reflexivity |].
      destruct (length l <=? 128)%nat eqn:E128; [reflexivity |].
      apply Nat.leb_gt in E128.
      pose proof (Nat.mod_upper_bound (length l / 2) 8 ltac:(lia)) as M.
      pose proof (Nat.div_mod_eq (length l) 2) as D.
      pose proof (Nat.mod_upper_bound (length l) 2 ltac:(lia)) as M2.
      f_equal; apply IH; rewrite ?length_firstn, ?length_skipn; lia.
Qed.

Section Float64Images.
#[local] Existing Instance Float64.scalars.
#[local] Existing Instance Float64.libraries.

(** Minimum and maximum are items of the array: a reordering of the items
    keeps them. *)
Lemma reordered_min_max (a b : ndarray) :
  Permutation (data a) (data b) ->
  scalar_eqb (np_min a) (np_min b) = true
  /\ scalar_eqb (np_max a) (np_max b) = true.
Proof.
  intros P. cbn. unfold Float64.np_min, Float64.np_max. cbn.
  rewrite (min_permutation _ _ P), (max_permutation _ _ P).
  split; apply Z.eqb_refl.
Qed.

(** On an image and a reordering of its items, [verify_statistics] is
    decided by the computed mean and standard deviation alone. *)
Lemma reordered_pixels fs original_path compressed_path
    (original compressed : ndarray) :
  imread fs original_path = Ok original ->
  imread fs compressed_path = Ok compressed ->
  data original <> [] ->
  Permutation (data original) (data compressed) ->
  verify_statistics fs original_path compressed_path
  = Ok (scalar_eqb (np_mean original) (np_mean compressed)
        && scalar_eqb (np_std original) (np_std compressed)).
Proof.
  intros Ho Hc No P.
  assert (data compressed <> []) as Nc
    by (intros E; rewrite E in P; now apply Permutation_nil_r in P).
  rewrite (verify_statistics_run _ _ _ _ _ Ho Hc No Nc).
  destruct (reordered_min_max _ _ P) as [-> ->].
  now rewrite andb_true_r.
Qed.

End Float64Images.

(** ** The properties on concrete files *)

Section Examples.
#[local] Existing Instance Sample.scalars.
#[local] Existing Instance Sample.libraries.



Lemma verify_metadata_fields_witness :
  exists r,
    verify_metadata
      (Sample.disk [("/a.tif", Sample.tagged 2); ("/b.tif", Sample.tagged 3)])
      "/a.tif" "/b.tif" = Ok r
    /\ (r = true <->
        forall field v,
          field ∈ ["frames"; "slices"; "channels"] ->
          ({["frames" := 2]} : gmap string Z) !! field = Some v ->
          exists v', ({["frames" := 3]} : gmap string Z) !! field = Some v'
                     /\ (v =? v') = true).
Proof.
  apply (verify_metadata_fields
           (Sample.disk [("/a.tif", Sample.tagged 2); ("/b.tif", Sample.tagged 3)])
           "/a.tif" "/b.tif"
           (@Tiff Sample.scalars (Ok (Sample.array [2; 2; 2]%nat [1; 2; 3; 4; 5; 6; 7; 8]))
                 [[2; 2; 2]%nat] (Some {["frames" := 2]}))
           (@Tiff Sample.scalars (Ok (Sample.array [2; 2; 2]%nat [1; 2; 3; 4; 5; 6; 7; 8]))
                 [[2; 2; 2]%nat] (Some {["frames" := 3]})));
    vm_compute; reflexivity.
Defined.

(** On that pair the check fails: the frame counts differ. *)
Example verify_metadata_frames :
  verify_metadata
    (Sample.disk [("/a.tif", Sample.tagged 2); ("/b.tif", Sample.tagged 3)])
    "/a.tif" "/b.tif" = Ok false
  /\ verify_metadata
       (Sample.disk [("/a.tif", Sample.tagged 2); ("/b.tif", Sample.tagged 2)])
       "/a.tif" "/b.tif" = Ok true
  /\ verify_metadata
       (Sample.disk [("/a.tif", Sample.stack); ("/b.tif", Sample.tagged 2)])
       "/a.tif" "/b.tif" = Ok false
  /\ verify_metadata
       (Sample.disk [("/a.tif", Sample.stack); ("/b.tif", Sample.stack_zip)])
       "/a.tif" "/b.tif" = Ok true.
Proof. repeat split; vm_compute; reflexivity. Qed.

Lemma verify_file_hashes_md5_witness :
  verify_file_hashes
    (Sample.disk [("/a.tif", Sample.stack); ("/b.tif", Sample.stack_zip)])
    "/a.tif" "/b.tif"
  = Ok (negb (String.eqb (MD5.hexdigest Sample.stack)
                         (MD5.hexdigest Sample.stack_zip)))
  /\ (Sample.stack = Sample.stack_zip ->
      verify_file_hashes
        (Sample.disk [("/a.tif", Sample.stack); ("/b.tif", Sample.stack_zip)])
        "/a.tif" "/b.tif" = Ok false)
  /\ (verify_file_hashes
        (Sample.disk [("/a.tif", Sample.stack); ("/b.tif", Sample.stack_zip)])
        "/a.tif" "/b.tif" = Ok true ->
      Sample.stack <> Sample.stack_zip).
Proof.
  apply (verify_file_hashes_md5
           (Sample.disk [("/a.tif", Sample.stack); ("/b.tif", Sample.stack_zip)])
           "/a.tif" "/b.tif" Sample.stack Sample.stack_zip);
    vm_compute; reflexivity.
Defined.

(** Two files whose bytes differ and for which [verify_file_hashes]
    returns false: their MD5 digests are the same. *)
Lemma verify_file_hashes_collision :
  Sample.collision1 <> Sample.collision2
  /\ files (Sample.disk [("/a.tif", Sample.collision1);
                         ("/b.tif", Sample.collision2)]) !! "/a.tif"
     = Some Sample.collision1
  /\ files (Sample.disk [("/a.tif", Sample.collision1);
                         ("/b.tif", Sample.collision2)]) !! "/b.tif"
     = Some Sample.collision2
  /\ verify_file_hashes
       (Sample.disk [("/a.tif", Sample.collision1);
                     ("/b.tif", Sample.collision2)])
       "/a.tif" "/b.tif" = Ok false.
Proof.
  split; [vm_compute; discriminate |].
  repeat split; vm_compute; reflexivity.
Qed.

(** C8. A file that is not a TIFF image as the original: only
    [verify_pixel_values] raises a wrapped error; [verify_statistics],
    [verify_dimensions] and [verify_metadata] raise the error of the
    library as it is, and so does [verify_file_hashes] on a missing file. *)
Theorem unreadable_original :
  verify_pixel_values
    (Sample.disk [("/a.tif", Sample.garbage); ("/b.tif", Sample.stack)])
    "/a.tif" "/b.tif"
  = Raise (Exn Exception "Pixel comparison failed: not a TIFF file")
  /\ verify_statistics
       (Sample.disk [("/a.tif", Sample.garbage); ("/b.tif", Sample.stack)])
       "/a.tif" "/b.tif"
     = Raise (Exn TiffFileError "not a TIFF file")
  /\ verify_dimensions
       (Sample.disk [("/a.tif", Sample.garbage); ("/b.tif", Sample.stack)])
       "/a.tif" "/b.tif"
     = Raise (Exn TiffFileError "not a TIFF file")
  /\ verify_metadata
       (Sample.disk [("/a.tif", Sample.garbage); ("/b.tif", Sample.stack)])
       "/a.tif" "/b.tif"
     = Raise (Exn TiffFileError "not a TIFF file")
  /\ verify_file_hashes
       (Sample.disk [("/b.tif", Sample.stack)]) "/a.tif" "/b.tif"
     = Raise (Exn FileNotFoundError
                "[Errno 2] No such file or directory: '/a.tif'").
Proof. repeat split; vm_compute; reflexivity. Qed.

Lemma identical_files_fail_witness :
  verify_file_hashes (fsys Sample.single_world) "/a.tif" "/a.tif" = Ok false
  /\ verify_pixel_values (fsys Sample.single_world) "/a.tif" "/a.tif" = Ok true
  /\ verify_dimensions (fsys Sample.single_world) "/a.tif" "/a.tif" = Ok true
  /\ verify_metadata (fsys Sample.single_world) "/a.tif" "/a.tif" = Ok true
  /\ verify_statistics (fsys Sample.single_world) "/a.tif" "/a.tif" = Ok true
  /\ fst (check_compression "/a.tif" "/a.tif" Sample.single_world) = Ok false.
Proof.
  destruct (identical_files_fail "/a.tif" "/a.tif" Sample.stack
              Sample.single_world)
    as (Hh & _ & Hc); [vm_compute; reflexivity.. |].
  split; [exact Hh |].
  refine (Hc (@Tiff Sample.scalars
                (Ok (Sample.array [2; 2; 2]%nat [1; 2; 3; 4; 5; 6; 7; 8]))
                [[2; 2; 2]%nat] None)
             (Sample.array [2; 2; 2]%nat [1; 2; 3; 4; 5; 6; 7; 8])
             _ _ _ _ _ _ _ _ _ _).
  - vm_compute. reflexivity.
  - reflexivity.
  - discriminate.
  - discriminate.
  - apply Forall_forall. intros x _. apply Z.eqb_refl.
  - discriminate.
  - vm_compute. reflexivity.
  - vm_compute. reflexivity.
  - vm_compute. reflexivity.
  - vm_compute. reflexivity.
Defined.

(** C9, counterexample. Byte-identical files for which no failure is
    reported: on an image without items the pixel check returns true but
    [verify_statistics] raises the [ValueError] of the reduction, and on a
    file that is not a TIFF image the first check raises; in both cases
    [check_compression] raises and prints nothing. *)
Lemma identical_files_raise :
  verify_file_hashes (Sample.disk [("/e.tif", Sample.raw [2; 0]%nat [])])
    "/e.tif" "/e.tif" = Ok false
  /\ verify_pixel_values (Sample.disk [("/e.tif", Sample.raw [2; 0]%nat [])])
       "/e.tif" "/e.tif" = Ok true
  /\ verify_statistics (Sample.disk [("/e.tif", Sample.raw [2; 0]%nat [])])
       "/e.tif" "/e.tif" = Raise zero_size
  /\ check_compression "/e.tif" "/e.tif"
       (Sample.start (Sample.disk [("/e.tif", Sample.raw [2; 0]%nat [])])
          "/e.tif" "zip")
     = (Raise zero_size,
        Sample.start (Sample.disk [("/e.tif", Sample.raw [2; 0]%nat [])])
          "/e.tif" "zip")
  /\ verify_file_hashes (Sample.disk [("/g.tif", Sample.garbage)])
       "/g.tif" "/g.tif" = Ok false
  /\ verify_pixel_values (Sample.disk [("/g.tif", Sample.garbage)])
       "/g.tif" "/g.tif"
     = Raise (Exn Exception "Pixel comparison failed: not a TIFF file")
  /\ check_compression "/g.tif" "/g.tif"
       (Sample.start (Sample.disk [("/g.tif", Sample.garbage)]) "/g.tif" "zip")
     = (Raise (Exn Exception "Pixel comparison failed: not a TIFF file"),
        Sample.start (Sample.disk [("/g.tif", Sample.garbage)]) "/g.tif" "zip").
Proof. repeat split; vm_compute; reflexivity. Qed.

(** The end-to-end scenario: a stack of two frames compressed with ZIP
    passes the five checks, the original is deleted and the compressed
    file retained. *)
Lemma single_file_policy_witness :
  exists w3 kept line,
    compress_single_file "/data/a.tif"
      (Sample.start (Sample.disk [("/data/a.tif", Sample.stack)])
         "/data/a.tif" "zip") = (Ok tt, w3)
    /\ results_text w3 =
       [ "File: a.tif" +:+ newline;
         "Compressed to: a_compressed_zip.tif" +:+ newline;
         "Verification: Success" +:+ newline;
         line;
         "Kept file: " +:+ path.basename kept +:+ newline;
         dashes 50 +:+ newline ]
    /\ kept = "/data/a_compressed_zip.tif"
    /\ files (fsys w3) !! "/data/a.tif" = None
    /\ is_Some (files (fsys w3) !! "/data/a_compressed_zip.tif").
Proof.
  destruct (single_file_policy "/data/a.tif"
              (Sample.start (Sample.disk [("/data/a.tif", Sample.stack)])
                 "/data/a.tif" "zip")
              "/data/a_compressed_zip.tif"
              (snd (compress_file "/data/a.tif" "zip"
                      (Sample.start (Sample.disk [("/data/a.tif", Sample.stack)])
                         "/data/a.tif" "zip")))
              true
              (snd (check_compression "/data/a.tif" "/data/a_compressed_zip.tif"
                      (snd (compress_file "/data/a.tif" "zip"
                              (Sample.start
                                 (Sample.disk [("/data/a.tif", Sample.stack)])
                                 "/data/a.tif" "zip"))))))
    as (w3 & kept & line & E & R & _ & _ & P & _);
    [vm_compute; reflexivity.. |].
  destruct P as (K & _ & N & S); [vm_compute; set_solver |].
  exists w3, kept, line. repeat split; assumption.
Defined.

(** The verification succeeds and the original cannot be removed: it is
    not deleted, and it is the file reported as kept. *)
Lemma locked_original_is_kept :
  fst (compress_file "/data/a.tif" "zip" Sample.locked_world)
  = Ok "/data/a_compressed_zip.tif"
  /\ fst (check_compression "/data/a.tif" "/data/a_compressed_zip.tif"
            (snd (compress_file "/data/a.tif" "zip" Sample.locked_world)))
     = Ok true
  /\ fst (compress_single_file "/data/a.tif" Sample.locked_world) = Ok tt
  /\ files (fsys (snd (compress_single_file "/data/a.tif" Sample.locked_world)))
     !! "/data/a.tif" = Some Sample.stack
  /\ files (fsys (snd (compress_single_file "/data/a.tif" Sample.locked_world)))
     !! "/data/a_compressed_zip.tif" = Some Sample.stack_zip
  /\ results_text (snd (compress_single_file "/data/a.tif" Sample.locked_world))
     = [ "File: a.tif" +:+ newline;
         "Compressed to: a_compressed_zip.tif" +:+ newline;
         "Verification: Success" +:+ newline;
         "Error managing files: [Errno 13] Permission denied: '/data/a.tif'"
           +:+ newline;
         "Kept file: a.tif" +:+ newline;
         dashes 50 +:+ newline ].
Proof. repeat split; vm_compute; reflexivity. Qed.

(** The end-to-end scenario with a compressed file whose pixels were
    changed afterwards: the pixel check fails, the overall result is
    failure, and the file manager deletes the compressed file. *)
Example corrupted_output_is_discarded :
  verify_all
    (Sample.disk [("/data/a.tif", Sample.stack);
                  ("/data/a_compressed_zip.tif", Sample.altered)])
    "/data/a.tif" "/data/a_compressed_zip.tif"
  = Ok [ ("pixel_values_match", false); ("file_hash_different", true);
         ("dimensions_match", true); ("metadata_matches", true);
         ("statistical_match", false) ]
  /\ files (fsys (snd (manage_files "/data/a.tif" "/data/a_compressed_zip.tif"
                         false
                         (Sample.start
                            (Sample.disk
                               [("/data/a.tif", Sample.stack);
                                ("/data/a_compressed_zip.tif", Sample.altered)])
                            "/data/a.tif" "zip"))))
     = {["/data/a.tif" := Sample.stack]}.
Proof. split; vm_compute; reflexivity. Qed.

(** C3. A folder with two files, the first of which is not an image:
    the error raised for the first ends [compress_folder], the handler of
    the button reports it, and the second file, which the single-file flow
    processes without error, is left as it was. *)
Theorem folder_stops_at_first_error :
  rglob_tif (fsys Sample.folder_world) "/data" = ["/data/a.tif"; "/data/b.tif"]
  /\ fst (compress_folder "/data" Sample.folder_world)
     = Raise (Exn Exception "Tifffile compression failed: not a TIFF file")
  /\ dialogs (snd (compress Sample.folder_world))
     = [showerror "Error"
          "An error occurred: Tifffile compression failed: not a TIFF file"]
  /\ fsys (snd (compress Sample.folder_world)) = fsys Sample.folder_world
  /\ results_text (snd (compress Sample.folder_world)) = []
  /\ fst (compress_single_file "/data/b.tif" Sample.folder_world) = Ok tt
  /\ files (fsys (snd (compress_single_file "/data/b.tif" Sample.folder_world)))
     = {["/data/a.tif" := Sample.garbage;
         "/data/b_compressed_zip.tif" := Sample.stack_zip]}.
Proof. repeat split; vm_compute; reflexivity. Qed.

(** [batch_compress_directory], for its part, goes on after the file
    that raises. *)
Example batch_goes_on_after_error :
  glob_tif (Sample.disk [("/in/a.tif", Sample.garbage);
                         ("/in/b.tif", Sample.stack)]) "/in"
  = ["/in/a.tif"; "/in/b.tif"]
  /\ map fst
       (match fst (batch_compress_directory "/in" "/out" "zip"
                     (Sample.start
                        (Sample.disk [("/in/a.tif", Sample.garbage);
                                      ("/in/b.tif", Sample.stack)])
                        "/in" "zip")) with
        | Ok results => results
        | Raise _ => []
        end) = ["b.tif"]
  /\ stdout (snd (batch_compress_directory "/in" "/out" "zip"
                    (Sample.start
                       (Sample.disk [("/in/a.tif", Sample.garbage);
                                     ("/in/b.tif", Sample.stack)])
                       "/in" "zip")))
     = ["Error processing /in/a.tif: Tifffile compression failed: not a TIFF file"].
Proof. repeat split; vm_compute; reflexivity. Qed.

(** A compressed output that does not follow the convention
    [<name>_compressed_<method>.tif]: the one [batch_compress_directory]
    writes for [a.tif] with the LZW method is [compressed_a.tif]. *)
Lemma batch_output_name :
  files (fsys (snd (batch_compress_directory "/in" "/out" "lzw"
                      (Sample.start (Sample.disk [("/in/a.tif", Sample.stack)])
                         "/in" "lzw"))))
  = {[ "/in/a.tif" := Sample.stack;
       "/out/compressed_a.tif" :=
         Sample.encode (Sample.array [2; 2; 2]%nat [1; 2; 3; 4; 5; 6; 7; 8])
           5 None ]}
  /\ path.basename "/out/compressed_a.tif" = "compressed_a.tif"
  /\ fst (path.splitext (path.basename "/in/a.tif"))
     +:+ "_compressed_" +:+ "lzw" +:+ ".tif" = "a_compressed_lzw.tif".
Proof. repeat split; vm_compute; reflexivity. Qed.

(** Files written by the two functions, to which the naming applies. *)
Example written_files :
  written_by (compress_file "/data/a.tif" "zip")
    (Sample.start (Sample.disk [("/data/a.tif", Sample.stack)])
       "/data/a.tif" "zip")
    "/data/a_compressed_zip.tif"
  /\ written_by (batch_compress_directory "/in" "/out" "lzw")
       (Sample.start (Sample.disk [("/in/a.tif", Sample.stack)]) "/in" "lzw")
       "/out/compressed_a.tif".
Proof. split; vm_compute; discriminate. Qed.

(** [manage_files] on a compressed file that is not there. *)
Example manage_files_missing :
  manage_files "/data/a.tif" "/data/a_compressed_zip.tif" false
    (Sample.start (Sample.disk [("/data/a.tif", Sample.stack)])
       "/data/a.tif" "zip")
  = (Ok "/data/a.tif",
     World (Sample.disk [("/data/a.tif", Sample.stack)]) []
       "/data/a.tif" "zip" "Ready" (inject_Z 0)
       ["Error managing files: [Errno 2] No such file or directory: "
        +:+ "'/data/a_compressed_zip.tif'" +:+ newline] []).
Proof. vm_compute. reflexivity. Qed.

End Examples.

(** ** The statistics on concrete files *)

Section Float64Examples.
#[local] Existing Instance Float64.scalars.
#[local] Existing Instance Float64.libraries.


End Float64Examples.

(** * Further properties *)

(** ** Components of the world that a computation leaves alone *)

Lemma keeps_mret {A T} (f : world -> T) (a : A) : keeps f (mret a).
Proof. now intros w. Qed.

Lemma keeps_mraise {A T} (f : world -> T) e : keeps f (@mraise A e).
Proof. now intros w. Qed.

Lemma keeps_reading {A T} (f : world -> T) (g : filesystem -> result A) :
  keeps f (reading g).
Proof. now intros w. Qed.

Lemma keeps_pure {A T} (f : world -> T) (r : result A) : keeps f (pure r).
Proof. now intros w. Qed.

Lemma keeps_mbind {A B T} (f : world -> T) (m : M A) (k : A -> M B) :
  keeps f m -> (forall a, keeps f (k a)) -> keeps f (mbind m k).
Proof.
  intros Hm Hk w. unfold mbind. specialize (Hm w).
  destruct (m w) as [[a|e] w1]; cbn [snd] in *; [| exact Hm].
  now rewrite Hk.
Qed.

Lemma keeps_mcatch {A T} (f : world -> T) (m : M A) (h : exn -> M A) :
  keeps f m -> (forall e, keeps f (h e)) -> keeps f (mcatch m h).
Proof.
  intros Hm Hh w. unfold mcatch. specialize (Hm w).
  destruct (m w) as [[a|e] w1]; cbn [snd] in *; [exact Hm |].
  now rewrite Hh.
Qed.

(** One step of a proof that a computation keeps a component. *)
Ltac keeps_step :=
  first
    [ solve [eauto]
    | apply keeps_mret | apply keeps_mraise | apply keeps_reading
    | apply keeps_pure
    | apply keeps_mbind; [| intros ?]
    | apply keeps_mcatch; [| intros ?]
    | match goal with
      | |- keeps _ (if ?b then _ else _) => destruct b
      | |- keeps _ (match ?x with _ => _ end) => destruct x
      end
    | (intros ?; reflexivity) ].

Section Frames.
Context `{Libraries}.

Lemma compress_with_tifffile_dialogs self output_path method :
  keeps dialogs (compress_with_tifffile self output_path method).
Proof.
  unfold compress_with_tifffile, _get_compression_stats. repeat keeps_step.
Qed.

Lemma compress_file_dialogs file method :
  keeps dialogs (compress_file file method).
Proof.
  unfold compress_file, TiffCompressor_init.
  pose proof compress_with_tifffile_dialogs. repeat keeps_step.
Qed.


Lemma compress_with_tifffile_stdout self output_path method :
  keeps stdout (compress_with_tifffile self output_path method).
Proof.
  unfold compress_with_tifffile, _get_compression_stats. repeat keeps_step.
Qed.

Lemma add_result_dialogs text : keeps dialogs (add_result text).
Proof. now intros w. Qed.

Lemma check_compression_dialogs original compressed :
  keeps dialogs (check_compression original compressed).
Proof.
  unfold check_compression. apply keeps_mbind; [apply keeps_reading |].
  intros results. destruct (forallb snd results); [repeat keeps_step |].
  apply keeps_mbind; [now intros w |]. intros _.
  induction results as [|[name b] results IH]; [apply keeps_mret |].
  cbn [fold_right snd fst]. destruct b; [exact IH |].
  apply keeps_mbind; [now intros w | intros _; exact IH].
Qed.

Lemma manage_files_dialogs original_path compressed_path ok :
  keeps dialogs (manage_files original_path compressed_path ok).
Proof.
  unfold manage_files, remove.
  pose proof add_result_dialogs. repeat keeps_step.
Qed.

Lemma compress_single_file_dialogs file_path :
  keeps dialogs (compress_single_file file_path).
Proof.
  unfold compress_single_file.
  pose proof add_result_dialogs. pose proof compress_file_dialogs.
  pose proof check_compression_dialogs. pose proof manage_files_dialogs.
  repeat keeps_step.
Qed.

Lemma folder_loop_dialogs total_files todo :
  forall i, keeps dialogs (folder_loop total_files i todo).
Proof.
  induction todo as [|f todo IH]; intros i; [apply keeps_mret |].
  cbn [folder_loop]. pose proof compress_single_file_dialogs.
  repeat keeps_step.
Qed.

Lemma compress_folder_dialogs folder_path :
  keeps dialogs (compress_folder folder_path).
Proof.
  unfold compress_folder. apply keeps_mbind; [apply keeps_reading |].
  intros tiff_files. destruct (_ =? _)%nat;
    [apply add_result_dialogs | apply folder_loop_dialogs].
Qed.

(** ** The compressor, run *)

(** What [compress_with_tifffile] returns and leaves on the disk. *)
Lemma compress_with_tifffile_run self output_path method w :
  match recompressed (fsys w) (input_path self) method with
  | Raise e =>
      compress_with_tifffile self output_path method w
      = (Raise (Exn Exception ("Tifffile compression failed: " +:+ exn_str e)),
         w)
  | Ok written =>
      snd (compress_with_tifffile self output_path method w)
      = on_disk w (write_bytes (fsys w) output_path written)
      /\ if original_size self =? 0
         then fst (compress_with_tifffile self output_path method w)
              = Raise (Exn Exception
                         "Tifffile compression failed: division by zero")
         else exists stats,
             fst (compress_with_tifffile self output_path method w) = Ok stats
  end.
Proof.
  unfold recompressed, compress_with_tifffile, _get_compression_stats, getsize,
    read_bytes, on_disk.
  run_monad. unfold write_bytes. cbn [files].
  destruct (TiffFile (fsys w) (input_path self)) as [tif|e]; cbn [rbind];
    [| reflexivity].
  destruct (asarray tif) as [data|e]; cbn [rbind]; [| reflexivity].
  destruct (tifffile_method method) as [c|e]; cbn [rbind]; [| reflexivity].
  destruct (imwrite data c _ _) as [written|e]; [| reflexivity].
  rewrite lookup_insert_eq. cbn [rbind].
  destruct (original_size self =? 0); cbn; eauto.
Qed.

(** What [compress_file] returns and leaves on the disk. *)
Lemma compress_file_run file method w :
  match files (fsys w) !! file with
  | None => compress_file file method w = (Raise (no_such_file file), w)
  | Some content =>
      match recompressed (fsys w) file method with
      | Raise e =>
          compress_file file method w
          = (Raise (Exn Exception
                      ("Tifffile compression failed: " +:+ exn_str e)), w)
      | Ok written =>
          compress_file file method w
          = (match content with
             | [] => Raise (Exn Exception
                              "Tifffile compression failed: division by zero")
             | _ => Ok (compressed_name file method)
             end,
             on_disk w (write_bytes (fsys w) (compressed_name file method)
                          written))
      end
  end.
Proof.
  unfold compress_file, mbind, mret. rewrite TiffCompressor_init_run.
  destruct (files (fsys w) !! file) as [content|]; [| reflexivity].
  pose proof (compress_with_tifffile_run
                (MkTiffCompressor file (Z.of_nat (length content)))
                (compressed_name file method) method w) as R.
  cbn [input_path original_size] in R.
  destruct (recompressed (fsys w) file method) as [written|e];
    [| now rewrite R].
  destruct R as [R1 R2].
  destruct (compress_with_tifffile _ _ _ w) as [r w1]. cbn [fst snd] in *.
  subst w1. destruct content as [|x content].
  - cbn in R2. now rewrite R2.
  - replace (Z.of_nat (length (x :: content)) =? 0) with false in R2
      by (symmetry; apply Z.eqb_neq; cbn [length]; lia).
    destruct R2 as [stats ->]. reflexivity.
Qed.

Lemma recompressed_method fs file method written :
  recompressed fs file method = Ok written ->
  path.rfind path.sep method = -1.
Proof.
  unfold recompressed. intros E.
  destruct (TiffFile fs file) as [tif|]; [| discriminate].
  cbn [rbind] in E. destruct (asarray tif) as [data|]; [| discriminate].
  cbn [rbind] in E.
  destruct (tifffile_method method) as [c|] eqn:Em; [| discriminate].
  eapply method_no_sep, Em.
Qed.

(** X5. On an input that is an existing regular file, [compress_file]
    either returns the output name, with the recompressed bytes written
    under that name, or raises an [Exception] whose text starts with
    [Tifffile compression failed: ]. *)
Theorem compress_file_outcome file method w content :
  files (fsys w) !! file = Some content ->
  match fst (compress_file file method w) with
  | Ok out =>
      out = compressed_name file method
      /\ exists written,
           recompressed (fsys w) file method = Ok written
           /\ files (fsys (snd (compress_file file method w))) !! out
              = Some written
  | Raise e =>
      exn_type e = Exception
      /\ exists msg, exn_str e = "Tifffile compression failed: " +:+ msg
  end.
Proof.
  intros Ef.
  pose proof (compress_file_run file method w) as R. rewrite Ef in R.
  destruct (recompressed (fsys w) file method) as [written|e] eqn:Er;
    rewrite R; cbn [fst snd].
  - destruct content.
    + split; [reflexivity |]. now eexists.
    + split; [reflexivity |].
      exists written. split; [reflexivity |].
      unfold on_disk, write_bytes. cbn. apply lookup_insert_eq.
  - split; [reflexivity |]. now eexists.
Qed.


(** The disk after [compress_file]. *)
Lemma compress_file_disk file method w :
  files (fsys (snd (compress_file file method w))) !! file
  = files (fsys w) !! file
  /\ (forall p, p <> compressed_name file method ->
        files (fsys (snd (compress_file file method w))) !! p
        = files (fsys w) !! p)
  /\ locked (fsys (snd (compress_file file method w))) = locked (fsys w).
Proof.
  pose proof (compress_file_run file method w) as R.
  destruct (files (fsys w) !! file) as [content|] eqn:Ef;
    [| rewrite R; cbn [snd]; now rewrite Ef].
  destruct (recompressed (fsys w) file method) as [written|e] eqn:Er;
    rewrite R; cbn [snd]; [| now rewrite Ef].
  unfold on_disk, write_bytes. cbn.
  pose proof (compressed_name_ne file method
                (recompressed_method _ _ _ _ Er)) as Ne.
  split; [now rewrite lookup_insert_ne |].
  split; [| reflexivity].
  intros p Hp. now rewrite lookup_insert_ne by congruence.
Qed.

(** X7. On a disk without links, whatever it returns, [compress_file]
    leaves its input file and every other file but the one it names as
    output as they were; with a method of [COMPRESSION_METHODS] the output
    name is not the input path. *)
Theorem compress_file_keeps_input file method w :
  files (fsys (snd (compress_file file method w))) !! file
  = files (fsys w) !! file
  /\ (forall p, p <> compressed_name file method ->
        files (fsys (snd (compress_file file method w))) !! p
        = files (fsys w) !! p)
  /\ locked (fsys (snd (compress_file file method w))) = locked (fsys w)
  /\ (forall compression,
        tifffile_method method = Ok compression ->
        compressed_name file method <> file).
Proof.
  destruct (compress_file_disk file method w) as (A & B & C).
  repeat (split; [assumption |]).
  intros compression Hm. eapply compressed_name_ne, method_no_sep, Hm.
Qed.


(** ** The verifier, further *)

Lemma length_bytes_le n x : length (MD5.bytes_le n x) = n.
Proof. unfold MD5.bytes_le. now rewrite length_map, length_seq. Qed.

Lemma length_digest msg : length (MD5.digest msg) = 16%nat.
Proof.
  unfold MD5.digest.
  destruct (MD5.blocks _ _ _) as [a b c d].
  now rewrite !length_app, !length_bytes_le.
Qed.

Lemma length_hex_of_bytes l :
  String.length (hex_of_bytes l) = (2 * length l)%nat.
Proof.
  induction l as [|b l IH]; [reflexivity |].
  cbn [hex_of_bytes String.length length]. rewrite IH. lia.
Qed.

(** X1. [get_file_hash] of an existing file is the MD5 digest of the whole
    content, whatever the size of the chunks it is read in, written as 32
    hexadecimal characters; for a missing file it raises the
    [FileNotFoundError] of [open]. *)
Theorem get_file_hash_digest fs file_path :
  match files fs !! file_path with
  | Some content =>
      get_file_hash fs file_path = Ok (MD5.hexdigest content)
      /\ String.length (MD5.hexdigest content) = 32%nat
      /\ forall size, (0 < size)%nat ->
           read_chunks size (S (length content)) content [] = content
  | None => get_file_hash fs file_path = Raise (no_such_file file_path)
  end.
Proof.
  destruct (files fs !! file_path) as [content|] eqn:E.
  - split; [now apply get_file_hash_md5 |]. split.
    + unfold MD5.hexdigest. now rewrite length_hex_of_bytes, length_digest.
    + intros size Hs. now rewrite read_chunks_all by lia.
  - unfold get_file_hash, read_bytes. now rewrite E.
Qed.

(** X2. [verify_pixel_values] returns a truth value exactly when both files
    are read; otherwise it raises an [Exception] whose text is
    [Pixel comparison failed: ] followed by the text of the error of the
    first read that failed. *)
Theorem verify_pixel_values_raises fs original_path compressed_path :
  match verify_pixel_values fs original_path compressed_path with
  | Ok _ =>
      exists original compressed,
        imread fs original_path = Ok original
        /\ imread fs compressed_path = Ok compressed
  | Raise e =>
      exists inner,
        e = Exn Exception ("Pixel comparison failed: " +:+ exn_str inner)
        /\ (imread fs original_path = Raise inner
            \/ (exists original, imread fs original_path = Ok original)
               /\ imread fs compressed_path = Raise inner)
  end.
Proof.
  unfold verify_pixel_values.
  destruct (imread fs original_path) as [a|e1]; cbn [rbind rcatch];
    [| eauto].
  destruct (imread fs compressed_path) as [b|e2]; cbn [rbind rcatch];
    [| eauto 6].
  destruct (bool_decide _); cbn [rcatch]; eauto.
Qed.

Lemma verify_all_true fs original compressed :
  (exists results, verify_all fs original compressed = Ok results
                   /\ forallb snd results = true)
  <-> verify_pixel_values fs original compressed = Ok true
      /\ verify_file_hashes fs original compressed = Ok true
      /\ verify_dimensions fs original compressed = Ok true
      /\ verify_metadata fs original compressed = Ok true
      /\ verify_statistics fs original compressed = Ok true.
Proof.
  unfold verify_all. split.
  - intros (results & E & A).
    destruct (verify_pixel_values _ _ _) as [b1|]; [| discriminate].
    destruct (verify_file_hashes _ _ _) as [b2|]; [| discriminate].
    destruct (verify_dimensions _ _ _) as [b3|]; [| discriminate].
    destruct (verify_metadata _ _ _) as [b4|]; [| discriminate].
    destruct (verify_statistics _ _ _) as [b5|]; [| discriminate].
    cbn [rbind] in E. injection E as <-. cbn [forallb snd] in A.
    destruct b1, b2, b3, b4, b5; try discriminate. auto.
  - intros (-> & -> & -> & -> & ->). cbn [rbind]. eauto.
Qed.

(** X3. [check_compression] returns true exactly when each of the five
    checks returns true, and it leaves the disk, the result log and the
    dialogs as they were. *)
Theorem check_compression_true_iff original compressed w :
  (fst (check_compression original compressed w) = Ok true
   <-> verify_pixel_values (fsys w) original compressed = Ok true
       /\ verify_file_hashes (fsys w) original compressed = Ok true
       /\ verify_dimensions (fsys w) original compressed = Ok true
       /\ verify_metadata (fsys w) original compressed = Ok true
       /\ verify_statistics (fsys w) original compressed = Ok true)
  /\ fsys (snd (check_compression original compressed w)) = fsys w
  /\ results_text (snd (check_compression original compressed w))
     = results_text w
  /\ dialogs (snd (check_compression original compressed w)) = dialogs w.
Proof.
  destruct (check_compression_run original compressed w)
    as (w' & E & F & R & _).
  rewrite E. cbn [fst snd]. split; [| split; [exact F | split; [exact R |]]].
  - rewrite <- verify_all_true.
    destruct (verify_all (fsys w) original compressed) as [results|e];
      cbn [rbind].
    + split; [intros [= A]; eauto | intros (r & [= <-] & A); now rewrite A].
    + split; [discriminate | intros (r & D & _); discriminate].
  - pose proof (check_compression_dialogs original compressed w) as D.
    now rewrite E in D.
Qed.

Lemma print_failed_stdout (results : list (string * bool)) w :
  stdout (snd (fold_right
                 (fun tp k => if snd tp : bool then k
                              else (print ("- Failed: " +:+ fst tp) ;;; k)%M)
                 (mret false) results w))
  = stdout w
    ++ map (fun tp => "- Failed: " +:+ fst tp)
         (List.filter (fun tp => negb (snd tp)) results).
Proof.
  revert w; induction results as [|[name b] results IH]; intros w.
  - cbn. now rewrite app_nil_r.
  - cbn [fold_right List.filter snd fst]. destruct b; cbn [negb]; [apply IH |].
    unfold mbind at 1, print at 1. rewrite IH. cbn [stdout map fst].
    now rewrite <- app_assoc.
Qed.

(** X4. What [check_compression] prints: one line of success when all
    checks hold; otherwise [Issues detected:] and one line for each check that
    failed, in the order of the checks; and nothing when a check raises, in
    which case the error is raised on. *)
Theorem check_compression_report original compressed w :
  match verify_all (fsys w) original compressed with
  | Raise e => check_compression original compressed w = (Raise e, w)
  | Ok results =>
      stdout (snd (check_compression original compressed w))
      = stdout w
        ++ (if forallb snd results
            then [original +:+ " : Compression successful with no data loss!"]
            else "Issues detected:"
                 :: map (fun tp => "- Failed: " +:+ fst tp)
                      (List.filter (fun tp => negb (snd tp)) results))
  end.
Proof.
  destruct (verify_all (fsys w) original compressed) as [results|e] eqn:E.
  - unfold check_compression. unfold mbind at 1, reading at 1. rewrite E.
    destruct (forallb snd results); [reflexivity |].
    unfold mbind at 1, print at 1. rewrite print_failed_stdout.
    cbn [stdout]. now rewrite <- app_assoc.
  - unfold check_compression, mbind, reading. now rewrite E.
Qed.

(** ** Compression followed by verification *)



(** ** The file manager, further *)

(** The disk after [manage_files]. *)
Lemma manage_files_disk original_path compressed_path ok w :
  fsys (snd (manage_files original_path compressed_path ok w))
  = match os_remove (fsys w) (if ok : bool then original_path
                              else compressed_path) with
    | Ok fs' => fs'
    | Raise _ => fsys w
    end
  /\ fst (manage_files original_path compressed_path ok w)
     = Ok (match os_remove (fsys w) (if ok : bool then original_path
                                     else compressed_path) with
           | Ok _ => if ok then compressed_path else original_path
           | Raise _ => original_path
           end).
Proof.
  destruct (os_remove (fsys w) (if ok then original_path else compressed_path))
    as [fs'|e] eqn:E.
  - destruct (manage_files_removed _ _ _ _ _ E) as (w' & R & F & _).
    now rewrite R.
  - destruct (manage_files_refused _ _ _ _ _ E) as (w' & R & F & _).
    now rewrite R.
Qed.

Lemma os_remove_disk fs p fs' :
  os_remove fs p = Ok fs' ->
  files fs' = delete p (files fs) /\ locked fs' = locked fs.
Proof.
  unfold os_remove. destruct (files fs !! p); [| discriminate].
  destruct (decide _); [discriminate |]. now intros [= <-].
Qed.

(** X9. [manage_files] returns one of its two paths and changes at most the
    file it set out to remove (the original after a success, the compressed
    file after a failure); when the two paths differ, the file it reports
    as kept is left as it was. *)
Theorem manage_files_touches_one original_path compressed_path
    (compression_successful : bool) w :
  exists kept,
    fst (manage_files original_path compressed_path compression_successful w)
    = Ok kept
    /\ (kept = original_path \/ kept = compressed_path)
    /\ (forall p,
          p <> (if compression_successful then original_path
                else compressed_path) ->
          files (fsys (snd (manage_files original_path compressed_path
                              compression_successful w))) !! p
          = files (fsys w) !! p)
    /\ (original_path <> compressed_path ->
        files (fsys (snd (manage_files original_path compressed_path
                            compression_successful w))) !! kept
        = files (fsys w) !! kept).
Proof.
  destruct (manage_files_disk original_path compressed_path
              compression_successful w) as [D K].
  rewrite D, K.
  destruct (os_remove (fsys w) _) as [fs'|e] eqn:E.
  - destruct (os_remove_disk _ _ _ E) as [F _]. rewrite F.
    eexists; split; [reflexivity |].
    split; [destruct compression_successful; auto |].
    split; [intros p Hp; now rewrite lookup_delete_ne by congruence |].
    intros Ne. rewrite lookup_delete_ne; [reflexivity |].
    destruct compression_successful; congruence.
  - eexists; split; [reflexivity |]. auto.
Qed.

(** The single-file flow, case by case. *)
Lemma compress_single_file_cases file w :
  match compress_file file (compression_var w)
          (snd (set_progress_bar (inject_Z 33) w)) with
  | (Raise e, w1) => compress_single_file file w = (Raise e, w1)
  | (Ok out, w1) =>
      match check_compression file out
              (snd (set_progress_bar (inject_Z 66) w1)) with
      | (Raise e, w2) => compress_single_file file w = (Raise e, w2)
      | (Ok success, w2) =>
          exists wc,
            fsys wc = fsys w2
            /\ fst (compress_single_file file w) = Ok tt
            /\ fsys (snd (compress_single_file file w))
               = fsys (snd (manage_files file out success wc))
      end
  end.
Proof.
  unfold compress_single_file.
  rewrite (mbind_ok (set_progress_bar (inject_Z 33)) _ w tt _ eq_refl).
  rewrite (mbind_ok (fun w => (Ok (compression_var w), w)) _
             (snd (set_progress_bar (inject_Z 33) w))
             (compression_var w) _ eq_refl).
  destruct (compress_file file (compression_var w) _) as [[out|e] w1] eqn:Ca;
    [| now rewrite (mbind_raise _ _ _ _ _ Ca)].
  rewrite (mbind_ok _ _ _ _ _ Ca).
  rewrite (mbind_ok (set_progress_bar (inject_Z 66)) _ w1 tt _ eq_refl).
  destruct (check_compression file out _) as [[success|e] w2] eqn:Cb;
    [| now rewrite (mbind_raise _ _ _ _ _ Cb)].
  rewrite (mbind_ok _ _ _ _ _ Cb).
  rewrite (mbind_ok (add_result _) _ w2 tt _ eq_refl).
  rewrite (mbind_ok (add_result _) _ _ tt _ eq_refl).
  rewrite (mbind_ok (add_result _) _ _ tt _ eq_refl).
  match goal with
  | |- context [mbind (manage_files file out success) _ ?wc] =>
      exists wc; split; [reflexivity |];
      destruct (manage_files_disk file out success wc) as [_ K];
      destruct (manage_files file out success wc) as [r wd] eqn:Em
  end.
  cbn [fst snd] in K. subst r.
  rewrite (mbind_ok _ _ _ _ _ Em).
  rewrite (mbind_ok (add_result _) _ wd tt _ eq_refl).
  split; reflexivity.
Qed.

(** X10. On a disk without links, the single-file flow changes the
    original file only by deleting it, and only in a run that returns and
    in which the five checks of the original against the freshly written
    output all hold: an error, or a failed verification, never costs the
    original. *)
Theorem original_removed_only_if_verified file w :
  files (fsys (snd (compress_single_file file w))) !! file
  <> files (fsys w) !! file ->
  fst (compress_single_file file w) = Ok tt
  /\ files (fsys (snd (compress_single_file file w))) !! file = None
  /\ fst (check_compression file (compressed_name file (compression_var w))
            (snd (compress_file file (compression_var w) w))) = Ok true.
Proof.
  intros Hne.
  pose proof (compress_single_file_cases file w) as C.
  set (wa := snd (set_progress_bar (inject_Z 33) w)) in *.
  destruct (compress_file_frame file (compression_var w) w wa) as [Fr Sd];
    [now repeat split |].
  destruct (compress_file_disk file (compression_var w) wa) as (Ka & _ & La).
  change (fsys wa) with (fsys w) in Ka, La.
  destruct (compress_file file (compression_var w) wa) as [[out|e] w1a] eqn:Ca;
    cbn [fst snd] in *; [| rewrite C in Hne; cbn [snd] in Hne; congruence].
  destruct (compress_file_effect _ _ _ _ _ Ca) as (_ & _ & _ & _ & O1).
  destruct (O1 out eq_refl) as (Eout & _ & _ & codec & Hm).
  assert (out <> file) as Ne
    by (rewrite Eout; apply compressed_name_ne; eapply method_no_sep, Hm).
  set (wb := snd (set_progress_bar (inject_Z 66) w1a)) in *.
  destruct (check_compression_run file out wb) as (w2' & Eb & Fb & _).
  change (fsys wb) with (fsys w1a) in Eb, Fb.
  destruct (check_compression file out wb) as [[success|e] w2] eqn:Cb.
  - destruct C as (wc & Fc & C1 & C2).
    injection Eb as Eb <-.
    destruct (manage_files_disk file out success wc) as [D _].
    rewrite C2, D, Fc, Fb in Hne |- *.
    destruct success.
    + destruct (os_remove (fsys w1a) file) as [fs'|e] eqn:Er;
        [| congruence].
      destruct (os_remove_disk _ _ _ Er) as [F _].
      split; [exact C1 |]. split; [rewrite F; apply lookup_delete_eq |].
      destruct (check_compression_run file
                  (compressed_name file (compression_var w))
                  (snd (compress_file file (compression_var w) w)))
        as (w2'' & E2 & _).
      rewrite E2. cbn [fst]. destruct Sd as (Sd & _). rewrite Sd, <- Eout.
      congruence.
    + exfalso. apply Hne.
      destruct (os_remove (fsys w1a) out) as [fs'|e] eqn:Er; [| exact Ka].
      destruct (os_remove_disk _ _ _ Er) as [F _].
      rewrite F, lookup_delete_ne by exact Ne. exact Ka.
  - rewrite C in Hne. cbn [snd] in Hne. injection Eb as _ <-.
    rewrite Fb in Hne. congruence.
Qed.

(** ** The handler of the button *)

(** X11. The handler of the Compress button never raises and shows exactly
    one dialog.  Without a selected path it is the request to select one,
    and nothing else changes.  Otherwise it is the success dialog when the
    flow for the path returns, whatever the verifications gave, and the
    error dialog with the text of the error when the flow raises. *)
Theorem compress_always_reports w :
  fst (compress w) = Ok tt
  /\ exists d,
       dialogs (snd (compress w)) = dialogs w ++ [d]
       /\ if String.eqb (path_var w) ""
          then d = showerror "Error" "Please select a file or folder first"
               /\ fsys (snd (compress w)) = fsys w
               /\ results_text (snd (compress w)) = results_text w
          else match fst (selected_flow w (cleared w)) with
               | Ok _ =>
                   d = showinfo "Success" "Compression completed successfully!"
               | Raise e =>
                   d = showerror "Error"
                         ("An error occurred: " +:+ exn_str e)
               end.
Proof.
  unfold compress.
  rewrite (mbind_ok (fun w => (Ok (path_var w), w)) _ w (path_var w) w eq_refl).
  destruct (String.eqb (path_var w) "") eqn:Ep.
  - split; [reflexivity |]. eexists. split; [reflexivity |]. auto.
  - rewrite (mbind_ok (set_results_text []) _ w tt
               (snd (set_results_text [] w)) eq_refl).
    rewrite (mbind_ok (set_progress_var "Processing...") _
               (snd (set_results_text [] w)) tt
               (snd (set_progress_var "Processing..."
                       (snd (set_results_text [] w)))) eq_refl).
    rewrite (mbind_ok (set_progress_bar (inject_Z 0)) _
               (snd (set_progress_var "Processing..."
                       (snd (set_results_text [] w)))) tt (cleared w) eq_refl).
    unfold mcatch.
    rewrite (mbind_ok (reading _) _ (cleared w)
               (isfile (fsys w) (path_var w)) (cleared w) eq_refl).
    assert (keeps dialogs (selected_flow w)) as Kd.
    { unfold selected_flow. destruct (isfile _ _);
        [apply compress_single_file_dialogs | apply compress_folder_dialogs]. }
    specialize (Kd (cleared w)). unfold selected_flow in *.
    destruct (isfile (fsys w) (path_var w));
      match goal with
      | |- context [mbind ?m _ (cleared w)] =>
          destruct (m (cleared w)) as [[[]|e] w1] eqn:Ef
      end;
      cbn [fst snd] in Kd;
      first [ rewrite (mbind_ok _ _ _ _ _ Ef) | rewrite (mbind_raise _ _ _ _ _ Ef) ];
      cbn; rewrite Kd; (split; [reflexivity |]);
      eexists; (split; [reflexivity |]); reflexivity.
Qed.


(** ** The batch, further *)

Lemma compress_with_tifffile_grows self output_path method w p :
  is_Some (files (fsys w) !! p) ->
  is_Some (files (fsys (snd (compress_with_tifffile self output_path method w)))
           !! p).
Proof.
  intros Hp.
  pose proof (compress_with_tifffile_run self output_path method w) as R.
  destruct (recompressed (fsys w) (input_path self) method) as [written|e].
  - destruct R as [-> _]. unfold on_disk, write_bytes. cbn.
    destruct (decide (output_path = p)) as [-> | Ne];
      [rewrite lookup_insert_eq; eauto | now rewrite lookup_insert_ne].
  - now rewrite R.
Qed.

(** One round of the loop of [batch_compress_directory]: an entry more in
    the results, or a line more on the output. *)
Lemma batch_compress_one_count output_dir method results tiff_file w :
  exists results' w',
    batch_compress_one output_dir method results tiff_file w = (Ok results', w')
    /\ ((exists stats,
           results' = results ++ [(path.basename tiff_file, stats)])
        /\ stdout w' = stdout w
        \/ results' = results /\ exists line, stdout w' = stdout w ++ [line])
    /\ forall p, is_Some (files (fsys w) !! p) ->
                 is_Some (files (fsys w') !! p).
Proof.
  unfold batch_compress_one, mcatch, mbind, mret.
  rewrite TiffCompressor_init_run.
  destruct (files (fsys w) !! tiff_file) as [b|].
  - pose proof (compress_with_tifffile_stdout
                  (MkTiffCompressor tiff_file (Z.of_nat (length b)))
                  (path.join output_dir
                     ("compressed_" +:+ path.basename tiff_file)) method w) as So.
    pose proof (compress_with_tifffile_grows
                  (MkTiffCompressor tiff_file (Z.of_nat (length b)))
                  (path.join output_dir
                     ("compressed_" +:+ path.basename tiff_file)) method w) as G.
    destruct (compress_with_tifffile _ _ _ w) as [[stats|e] w1];
      cbn [snd] in So, G; cbn.
    + do 2 eexists. split; [reflexivity |]. split; [left; eauto | exact G].
    + do 2 eexists. split; [reflexivity |].
      split; [right; split; [reflexivity |]; rewrite So; eauto | exact G].
  - cbn. do 2 eexists. split; [reflexivity |]. split; [right; eauto | auto].
Qed.

Lemma batch_loop_count output_dir method todo :
  forall results w,
  exists results' errors w',
    batch_loop output_dir method todo results w = (Ok results', w')
    /\ stdout w' = stdout w ++ errors
    /\ (length results' + length errors = length results + length todo)%nat
    /\ (forall name, In name (map fst results') ->
          In name (map fst results) \/ In name (map path.basename todo))
    /\ forall p, is_Some (files (fsys w) !! p) ->
                 is_Some (files (fsys w') !! p).
Proof.
  induction todo as [|f todo IH]; intros results w.
  - exists results, [], w. cbn. rewrite app_nil_r. repeat split; auto; lia.
  - cbn [batch_loop].
    destruct (batch_compress_one_count output_dir method results f w)
      as (results1 & w1 & E1 & C1 & G1).
    rewrite (mbind_ok _ _ _ _ _ E1).
    destruct (IH results1 w1) as (results' & errors & w' & E & So & Len & Nm & G).
    destruct C1 as [[[stats ->] S1] | [-> [line S1]]].
    + exists results', errors, w'. split; [exact E |].
      split; [now rewrite So, S1 |].
      split; [rewrite Len, length_app; cbn; lia |].
      split; [| auto].
      intros name I. destruct (Nm name I) as [I' | I'].
      * rewrite map_app in I'. apply in_app_or in I' as [I' | I']; [auto |].
        cbn in I'. destruct I' as [<- | []]. right. now left.
      * right. now right.
    + exists results', (line :: errors), w'. split; [exact E |].
      split; [rewrite So, S1, <- app_assoc; reflexivity |].
      split; [cbn [length] in *; lia |].
      split; [| auto].
      intros name I. destruct (Nm name I) as [I' | I']; [auto |].
      right. now right.
Qed.

Lemma batch_compress_directory_run input_dir output_dir method w :
  batch_compress_directory input_dir output_dir method w
  = if isfile (fsys w) output_dir
    then (Raise (Exn FileExistsError
                   ("[Errno 17] File exists: " +:+ quoted output_dir)), w)
    else batch_loop output_dir method (glob_tif (fsys w) input_dir) [] w.
Proof.
  unfold batch_compress_directory, mkdir_exist_ok, mbind, reading, mret, mraise.
  now destruct (isfile (fsys w) output_dir).
Qed.

(** X12. The loop of [batch_compress_directory] never raises: every file
    found gives either an entry of the result, named after the file, or a
    line printed for its error, so that the results and the lines printed
    add up to the files found. *)
Theorem batch_loop_outcome input_dir output_dir method w :
  exists results errors w',
    batch_loop output_dir method (glob_tif (fsys w) input_dir) [] w
    = (Ok results, w')
    /\ stdout w' = stdout w ++ errors
    /\ (length results + length errors
        = length (glob_tif (fsys w) input_dir))%nat
    /\ forall name, In name (map fst results) ->
         In name (map path.basename (glob_tif (fsys w) input_dir)).
Proof.
  destruct (batch_loop_count output_dir method
              (glob_tif (fsys w) input_dir) [] w)
    as (results & errors & w' & E & So & Len & Nm & _).
  exists results, errors, w'. split; [exact E |]. split; [exact So |].
  split; [exact Len |].
  intros name I. destruct (Nm name I) as [[] | I']. exact I'.
Qed.

(** X13. The compressor never removes a file: whatever existed before
    [compress_file], [compress_and_check] or [batch_compress_directory]
    exists after it, whether the call returns or raises. *)
Theorem compressor_never_deletes w p :
  is_Some (files (fsys w) !! p) ->
  (forall file method,
     is_Some (files (fsys (snd (compress_file file method w))) !! p))
  /\ (forall file,
        is_Some (files (fsys (snd (compress_and_check file w))) !! p))
  /\ (forall input_dir output_dir method,
        is_Some (files (fsys (snd (batch_compress_directory
                                     input_dir output_dir method w))) !! p)).
Proof.
  intros Hp.
  assert (forall file method,
            is_Some (files (fsys (snd (compress_file file method w))) !! p))
    as Cf.
  { intros file method.
    destruct (compress_file_disk file method w) as (_ & K & _).
    pose proof (compress_file_run file method w) as R.
    destruct (files (fsys w) !! file) as [content|];
      [| now rewrite R].
    destruct (recompressed (fsys w) file method) as [written|e];
      rewrite R; cbn [snd]; [| exact Hp].
    unfold on_disk, write_bytes. cbn.
    destruct (decide (compressed_name file method = p)) as [-> | Ne];
      [rewrite lookup_insert_eq; eauto | now rewrite lookup_insert_ne]. }
  split; [exact Cf | split].
  - intros file. unfold compress_and_check, mbind, mret.
    specialize (Cf file "zip").
    destruct (compress_file file "zip" w) as [[out|e] w1]; cbn [snd] in *;
      [| exact Cf].
    destruct (check_compression_run file out w1) as (w2 & E & F & _).
    rewrite E.
    destruct (_ <- verify_all (fsys w1) file out ;; _)%result;
      cbn [snd]; now rewrite F.
  - intros input_dir output_dir method.
    rewrite batch_compress_directory_run.
    destruct (isfile (fsys w) output_dir); [exact Hp |].
    destruct (batch_loop_count output_dir method
                (glob_tif (fsys w) input_dir) [] w)
      as (results & errors & w' & E & _ & _ & _ & G).
    rewrite E. cbn [snd]. now apply G.
Qed.


(** ** Output names and extensions *)

Lemma split_nonempty p : path.split p <> [].
Proof.
  destruct p as [|a r]; [discriminate |]. cbn [path.split].
  destruct (Ascii.eqb a path.sep); [discriminate |].
  destruct (path.split r); discriminate.
Qed.

Lemma split_app a b :
  path.split (a +:+ String "/" b) = path.split a ++ path.split b.
Proof.
  induction a as [|x a IH]; [reflexivity |].
  rewrite append_cons. cbn [path.split]. rewrite IH.
  destruct (Ascii.eqb x path.sep); [reflexivity |].
  pose proof (split_nonempty a).
  destruct (path.split a); [congruence | reflexivity].
Qed.

Lemma split_no_sep n : path.rfind path.sep n = -1 -> path.split n = [n].
Proof.
  induction n as [|x n IH]; [reflexivity |].
  cbn [path.rfind path.split]. pose proof (rfind_lower path.sep n).
  destruct (0 <=? path.rfind path.sep n) eqn:E; [apply Z.leb_le in E; lia |].
  apply Z.leb_gt in E.
  destruct (Ascii.eqb x path.sep); [lia |].
  intros _. rewrite IH by lia. reflexivity.
Qed.

(** The components seen so far only matter through what [normpath] has
    kept of them. *)
Lemma norm_comps_app isl l1 :
  forall acc, exists acc',
    forall l2, path.norm_comps isl acc (l1 ++ l2) = path.norm_comps isl acc' l2.
Proof.
  induction l1 as [|c l1 IH]; intros acc; [now exists acc |].
  cbn [app path.norm_comps].
  destruct (_ || _); [apply IH |].
  destruct (_ || _); apply IH.
Qed.

Lemma plain_name_first n :
  plain_name n -> exists c m, n = String c m /\ c <> "/"%char.
Proof.
  intros (Hs & Hn & _). destruct n as [|c m]; [congruence |].
  exists c, m. split; [reflexivity |]. intros ->.
  cbn [path.rfind] in Hs. pose proof (rfind_lower path.sep m).
  destruct (0 <=? path.rfind path.sep m) eqn:E;
    [apply Z.leb_le in E; lia | discriminate].
Qed.

(** A plain name followed by [..] leaves no trace in [normpath]. *)
Lemma norm_comps_name_up isl acc n :
  plain_name n ->
  path.norm_comps isl acc [n; ".."] = rev acc.
Proof.
  intros (_ & N0 & N1 & N2). cbn [path.norm_comps].
  rewrite (proj2 (String.eqb_neq n "")) by exact N0.
  rewrite (proj2 (String.eqb_neq n ".")) by exact N1.
  rewrite (proj2 (String.eqb_neq n "..")) by exact N2.
  cbn [orb negb]. rewrite bool_decide_eq_false_2 by discriminate.
  rewrite andb_false_r. reflexivity.
Qed.

Lemma prefix_nil s : String.prefix "" s = true.
Proof. now destruct s. Qed.

Lemma startswith_sep_app x c r r' :
  path.startswith_sep (x +:+ String c r) = path.startswith_sep (x +:+ String c r').
Proof. destruct x; reflexivity. Qed.

Lemma normpath_name_up x n1 n2 :
  plain_name n1 -> plain_name n2 ->
  path.normpath (x +:+ String "/" (n1 +:+ String "/" ".."))
  = path.normpath (x +:+ String "/" (n2 +:+ String "/" "..")).
Proof.
  intros P1 P2. unfold path.normpath.
  assert (forall n, String.eqb (x +:+ String "/" n) "" = false) as E0
    by (intros n; destruct x; reflexivity).
  rewrite !E0.
  rewrite (startswith_sep_app x "/" (n1 +:+ String "/" "..")
             (n2 +:+ String "/" "..")).
  assert (forall n, plain_name n ->
            path.split (x +:+ String "/" (n +:+ String "/" ".."))
            = path.split x ++ [n; ".."]) as Sp.
  { intros n (Hs & _). rewrite !split_app, (split_no_sep n Hs). reflexivity. }
  rewrite (Sp n1 P1), (Sp n2 P2).
  destruct (norm_comps_app
              (path.startswith_sep (x +:+ String "/" (n2 +:+ String "/" "..")))
              (path.split x) []) as [acc' Ha].
  rewrite !Ha, !norm_comps_name_up by assumption.
  assert (String.prefix "//" (x +:+ String "/" (n1 +:+ String "/" ".."))
          && negb (String.prefix "///" (x +:+ String "/" (n1 +:+ String "/" "..")))
          = String.prefix "//" (x +:+ String "/" (n2 +:+ String "/" ".."))
            && negb (String.prefix "///"
                       (x +:+ String "/" (n2 +:+ String "/" "..")))) as ->;
    [| reflexivity].
  destruct (plain_name_first n1 P1) as (c1 & m1 & -> & Hc1).
  destruct (plain_name_first n2 P2) as (c2 & m2 & -> & Hc2).
  destruct x as [|x1 [|x2 [|x3 x]]];
    rewrite ?append_cons, ?append_nil_l; cbn [String.prefix];
    repeat (destruct (ascii_dec _ _)); rewrite ?prefix_nil;
    try reflexivity; congruence.
Qed.

Lemma endswith_sep_app a b :
  b <> "" -> path.endswith_sep (a +:+ b) = path.endswith_sep b.
Proof.
  intros Nb. induction a as [|x a IH]; [reflexivity |].
  rewrite append_cons. cbn [path.endswith_sep]. rewrite IH.
  destruct (a +:+ b) eqn:E; [| reflexivity].
  destruct a; [rewrite append_nil_l in E; congruence | discriminate].
Qed.

Lemma endswith_sep_no_sep n :
  path.rfind path.sep n = -1 -> path.endswith_sep n = false.
Proof.
  intros Hs. destruct (path.endswith_sep n) eqn:E; [| reflexivity].
  pose proof (endswith_sep_rfind n "" E) as R.
  rewrite append_nil_r in R. lia.
Qed.

(** The folder [compress_file] computes for a file of a directory does not
    depend on the name of the file. *)
Lemma folder_of_file dir n1 n2 :
  plain_name n1 -> plain_name n2 ->
  path.abspath getcwd (path.join (dir +:+ "/" +:+ n1) path.pardir)
  = path.abspath getcwd (path.join (dir +:+ "/" +:+ n2) path.pardir).
Proof.
  intros P1 P2.
  assert (forall n, plain_name n ->
            path.join (dir +:+ "/" +:+ n) path.pardir
            = dir +:+ String "/" (n +:+ String "/" "..")) as J.
  { intros n (Hs & Hn & _). unfold path.join, path.pardir.
    cbn [path.startswith_sep]. change (Ascii.eqb "." path.sep) with false.
    cbv iota.
    assert (String.eqb (dir +:+ "/" +:+ n) "" = false) as ->
      by (destruct dir; reflexivity).
    assert (path.endswith_sep (dir +:+ "/" +:+ n) = false) as ->.
    { rewrite <- append_assoc, endswith_sep_app by exact Hn.
      now apply endswith_sep_no_sep. }
    cbn [orb]. now rewrite !append_assoc. }
  rewrite (J n1 P1), (J n2 P2). unfold path.abspath.
  rewrite (startswith_sep_app dir "/" (n1 +:+ String "/" "..")
             (n2 +:+ String "/" "..")).
  destruct (path.startswith_sep (dir +:+ String "/" (n2 +:+ String "/" "..")))
    eqn:Es; [now apply normpath_name_up |].
  unfold path.join.
  rewrite (startswith_sep_app dir "/" (n1 +:+ String "/" "..")
             (n2 +:+ String "/" "..")), Es.
  destruct (String.eqb getcwd "" || path.endswith_sep getcwd).
  - rewrite <- !append_assoc. now apply normpath_name_up.
  - assert (forall t, getcwd +:+ "/" +:+ dir +:+ t
                      = (getcwd +:+ "/" +:+ dir) +:+ t) as A
      by (intros t; now rewrite !append_assoc).
    rewrite !A. now apply normpath_name_up.
Qed.

(** X14. The output name does not depend on the extension of the input:
    two files of one directory whose names differ only in their extension,
    like [a.tif] and [a.tiff], get the same output name from
    [compress_file]. *)
Theorem compressed_name_ignores_extension dir n1 n2 method :
  plain_name n1 -> plain_name n2 ->
  fst (path.splitext n1) = fst (path.splitext n2) ->
  compressed_name (dir +:+ "/" +:+ n1) method
  = compressed_name (dir +:+ "/" +:+ n2) method.
Proof.
  intros P1 P2 Es. unfold compressed_name.
  rewrite (folder_of_file dir n1 n2 P1 P2).
  assert (forall n, plain_name n -> path.basename (dir +:+ "/" +:+ n) = n) as B.
  { intros n (Hs & _). rewrite <- append_assoc.
    apply basename_app; [right; apply endswith_sep_app_sep | exact Hs]. }
  now rewrite (B n1 P1), (B n2 P2), Es.
Qed.


(** ** The five checks together *)

Lemma verify_pixel_values_inv fs original_path compressed_path :
  match verify_pixel_values fs original_path compressed_path with
  | Ok _ =>
      exists original compressed,
        imread fs original_path = Ok original
        /\ imread fs compressed_path = Ok compressed
  | Raise e =>
      exists inner,
        e = Exn Exception ("Pixel comparison failed: " +:+ exn_str inner)
  end.
Proof.
  unfold verify_pixel_values.
  destruct (imread fs original_path) as [a|e1]; cbn [rbind rcatch];
    [| eauto].
  destruct (imread fs compressed_path) as [b|e2]; cbn [rbind rcatch];
    [| eauto].
  destruct (bool_decide _); cbn [rcatch]; eauto.
Qed.

Lemma imread_opens fs p a :
  imread fs p = Ok a ->
  exists content tif,
    files fs !! p = Some content /\ TiffFile fs p = Ok tif
    /\ asarray tif = Ok a.
Proof.
  unfold imread, TiffFile, read_bytes. intros E.
  destruct (files fs !! p) as [content|]; [| discriminate].
  cbn [rbind] in *. destruct (tiff_open content) as [tif|]; [| discriminate].
  cbn [rbind] in E. eauto.
Qed.

(** X15. Through [verify_all] a failed read always comes out wrapped: the
    error it raises is either the [Exception] of [verify_pixel_values], or,
    with both images read, the [IndexError] of a file without series or the
    [ValueError] of an image without pixels.  The errors of [open] and of
    the codec never come out as they are. *)
Theorem verify_all_errors fs original compressed :
  match verify_all fs original compressed with
  | Ok results =>
      map fst results
      = ["pixel_values_match"; "file_hash_different"; "dimensions_match";
         "metadata_matches"; "statistical_match"]
  | Raise e =>
      (exists inner,
         e = Exn Exception ("Pixel comparison failed: " +:+ exn_str inner))
      \/ ((exists a b, imread fs original = Ok a /\ imread fs compressed = Ok b)
          /\ (e = Exn IndexError "list index out of range" \/ e = zero_size))
  end.
Proof.
  unfold verify_all.
  pose proof (verify_pixel_values_inv fs original compressed) as P.
  destruct (verify_pixel_values fs original compressed) as [b1|e];
    cbn [rbind]; [| now left].
  destruct P as (a & b & Ia & Ib).
  destruct (imread_opens _ _ _ Ia) as (ca & ta & Fa & Ta & Aa).
  destruct (imread_opens _ _ _ Ib) as (cb & tb & Fb & Tb & Ab).
  unfold verify_file_hashes.
  rewrite (get_file_hash_md5 _ _ _ Fa), (get_file_hash_md5 _ _ _ Fb).
  cbn [rbind].
  unfold verify_dimensions, series0_shape. rewrite Ta, Tb. cbn [rbind].
  destruct (series ta); cbn [rbind]; [right; eauto 7 |].
  destruct (series tb); cbn [rbind]; [right; eauto 7 |].
  unfold verify_metadata. rewrite Ta, Tb. cbn [rbind].
  assert (exists m,
            match imagej_metadata ta, imagej_metadata tb with
            | None, None => Ok true
            | Some orig_meta, Some comp_meta =>
                Ok (forallb
                      (fun field => get_eqb (orig_meta !! field)
                                      (comp_meta !! field))
                      (filter (fun field => is_Some (orig_meta !! field))
                         crucial_fields))
            | _, _ => Ok false
            end = Ok m) as [m ->]
    by (destruct (imagej_metadata ta), (imagej_metadata tb); eauto).
  cbn [rbind]. unfold verify_statistics. rewrite Ia, Ib. cbn [rbind].
  destruct (data a); [right; eauto 7 |].
  destruct (data b); [right; eauto 7 |].
  reflexivity.
Qed.

(** X16. Running [compress_file] a second time on the same input gives the
    same result and the same disk as the first time. *)
Theorem compress_file_again file method w :
  fst (compress_file file method (snd (compress_file file method w)))
  = fst (compress_file file method w)
  /\ fsys (snd (compress_file file method (snd (compress_file file method w))))
     = fsys (snd (compress_file file method w)).
Proof.
  pose proof (compress_file_run file method w) as R.
  destruct (files (fsys w) !! file) as [content|] eqn:Ef;
    [| rewrite R; cbn [fst snd]; now rewrite R].
  destruct (recompressed (fsys w) file method) as [written|e] eqn:Er;
    [| rewrite R; cbn [fst snd]; now rewrite R].
  rewrite R. cbn [fst snd].
  pose proof (compressed_name_ne file method
                (recompressed_method _ _ _ _ Er)) as Ne.
  set (w1 := on_disk w (write_bytes (fsys w) (compressed_name file method)
                          written)).
  pose proof (compress_file_run file method w1) as R1.
  assert (files (fsys w1) !! file = Some content) as Ef1.
  { unfold w1, on_disk, write_bytes. cbn.
    now rewrite lookup_insert_ne by congruence. }
  assert (recompressed (fsys w1) file method = Ok written) as Er1.
  { rewrite <- Er. unfold recompressed, TiffFile, read_bytes.
    now rewrite Ef1, Ef. }
  rewrite Ef1, Er1 in R1. rewrite R1. cbn [fst snd].
  split; [reflexivity |].
  unfold w1, on_disk, write_bytes. cbn. f_equal. apply insert_insert_eq.
Qed.

End Frames.

(** ** The further properties on concrete files *)

Section FurtherExamples.
#[local] Existing Instance Sample.scalars.
#[local] Existing Instance Sample.libraries.


Lemma compress_file_outcome_witness :
  fst (compress_file "/a.tif" "zip" Sample.single_world)
  = Ok "/a_compressed_zip.tif"
  /\ files (fsys (snd (compress_file "/a.tif" "zip" Sample.single_world)))
     !! "/a_compressed_zip.tif" = Some Sample.stack_zip.
Proof.
  assert (files (fsys Sample.single_world) !! "/a.tif" = Some Sample.stack)
    as Ef by (vm_compute; reflexivity).
  pose proof (compress_file_outcome "/a.tif" "zip" Sample.single_world
                Sample.stack Ef) as O.
  assert (fst (compress_file "/a.tif" "zip" Sample.single_world)
          = Ok "/a_compressed_zip.tif") as E by (vm_compute; reflexivity).
  rewrite E in O. destruct O as (_ & written & Hr & Hw).
  split; [reflexivity |]. rewrite Hw. vm_compute in Hr.
  injection Hr as <-. vm_compute. reflexivity.
Defined.


Lemma original_removed_only_if_verified_witness :
  fst (compress_single_file "/a.tif" Sample.single_world) = Ok tt
  /\ files (fsys (snd (compress_single_file "/a.tif" Sample.single_world)))
     !! "/a.tif" = None
  /\ fst (check_compression "/a.tif"
            (compressed_name "/a.tif" (compression_var Sample.single_world))
            (snd (compress_file "/a.tif" (compression_var Sample.single_world)
                    Sample.single_world))) = Ok true.
Proof.
  apply (original_removed_only_if_verified "/a.tif" Sample.single_world).
  vm_compute. discriminate.
Defined.

Lemma compressor_never_deletes_witness :
  (forall file method,
     is_Some (files (fsys (snd (compress_file file method Sample.single_world)))
              !! "/a.tif"))
  /\ (forall file,
        is_Some (files (fsys (snd (compress_and_check file Sample.single_world)))
                 !! "/a.tif"))
  /\ (forall input_dir output_dir method,
        is_Some (files (fsys (snd (batch_compress_directory
                                     input_dir output_dir method
                                     Sample.single_world))) !! "/a.tif")).
Proof.
  apply (compressor_never_deletes Sample.single_world "/a.tif").
  vm_compute. eauto.
Defined.

Lemma compressed_name_ignores_extension_witness :
  compressed_name ("/data" +:+ "/" +:+ "a.tif") "zip"
  = compressed_name ("/data" +:+ "/" +:+ "a.tiff") "zip".
Proof.
  apply (compressed_name_ignores_extension "/data" "a.tif" "a.tiff" "zip").
  - unfold plain_name. repeat split; discriminate.
  - unfold plain_name. repeat split; discriminate.
  - reflexivity.
Defined.

(** What the sharing of an output name does to a folder holding [a.tif]
    and [a.tiff] with different images: both originals are deleted and the
    one output holds the image processed last. *)
Example same_stem_overwrites :
  rglob_tif (Sample.disk [("/data/a.tif", Sample.stack);
                          ("/data/a.tiff", Sample.reversed)]) "/data"
  = ["/data/a.tiff"; "/data/a.tif"]
  /\ files (fsys (snd (compress
                         (Sample.start
                            (Sample.disk [("/data/a.tif", Sample.stack);
                                          ("/data/a.tiff", Sample.reversed)])
                            "/data" "zip"))))
     = {["/data/a_compressed_zip.tif" := Sample.stack_zip]}
  /\ dialogs (snd (compress
                     (Sample.start
                        (Sample.disk [("/data/a.tif", Sample.stack);
                                      ("/data/a.tiff", Sample.reversed)])
                        "/data" "zip")))
     = [showinfo "Success" "Compression completed successfully!"].
Proof. repeat split; vm_compute; reflexivity. Qed.

End FurtherExamples.

(** ** The log of the single-file flow *)

Section Log.
Context `{Libraries}.

(** X17. A run of the single-file flow that raises logs nothing; a run
    that returns logs six lines: the file, the compressed file, the verdict,
    what [manage_files] did, the file kept (the original or the compressed
    file) and a separator. *)
Theorem compress_single_file_log file w :
  match compress_single_file file w with
  | (Raise _, w') => results_text w' = results_text w
  | (Ok _, w') =>
      exists success line kept,
        results_text w' =
        results_text w
        ++ [ "File: " +:+ path.basename file +:+ newline;
             "Compressed to: "
               +:+ path.basename (compressed_name file (compression_var w))
               +:+ newline;
             "Verification: "
               +:+ (if success : bool then "Success" else "Failed") +:+ newline;
             line;
             "Kept file: " +:+ path.basename kept +:+ newline;
             dashes 50 +:+ newline ]
        /\ (kept = file \/ kept = compressed_name file (compression_var w))
  end.
Proof.
  unfold compress_single_file, mbind, set_progress_bar, add_result,
    set_results_text.
  cbv beta iota.
  cbn [fsys stdout path_var compression_var progress_var progress_bar
       results_text dialogs].
  destruct (compress_file file (compression_var w) _) as [[out|e] w1] eqn:Ca;
    destruct (compress_file_effect _ _ _ _ _ Ca) as (R1 & _ & _ & _ & O1);
    cbn [results_text] in R1; [| exact R1].
  destruct (O1 out eq_refl) as (-> & _).
  match goal with
  | |- context [check_compression file ?o ?wb] =>
      destruct (check_compression_run file o wb) as (w2' & Eb & _ & Rb & _);
      cbn [results_text] in Rb;
      destruct (check_compression file o wb) as [[success|e] w2] eqn:Cb
  end;
    injection Eb as _ <-; [| congruence].
  match goal with
  | |- context [manage_files file ?o success ?wc] =>
      destruct (os_remove (fsys wc) (if success then file else o))
        as [fs'|e] eqn:Er;
      [ destruct (manage_files_removed file o success wc _ Er)
          as (wd & Em & _ & Rd)
      | destruct (manage_files_refused file o success wc _ Er)
          as (wd & Em & _ & Rd) ];
      rewrite Em; cbn [results_text] in Rd |- *
  end.
  - eexists success, _, _. split.
    + rewrite Rd, Rb, R1, <- !app_assoc. reflexivity.
    + destruct success; auto.
  - eexists success, _, _. split.
    + rewrite Rd, Rb, R1, <- !app_assoc. reflexivity.
    + auto.
Qed.

End Log.
